(** * nextjs-webxr: the procedural garden scene

    A shallow embedding of the four plant generators ([Tree], [Flower],
    [FruitPlant], [SmallPlant]) and of the scene assembler ([XRScene]).

    Conventions of the embedding.
    - A JavaScript number is a real number ([R]); arithmetic is exact, so
      the bounds below are those of the formulas, not of their IEEE-754
      rounding.  [Math.floor] gives an integer ([Z]).
    - [Math.random()] is an oracle: a function [random : nat -> R] gives the
      value of its k-th call, and the code threads the number of calls made
      so far through a state monad.  Its contract, a value in [0, 1), is the
      predicate [unit_interval], assumed where a property needs it.
    - [useMemo] keeps one cell per call site: the cached value and the
      dependency array of the render that computed it.
    - A React element is a record of its type, key and props; child arrays
      keep their place among the children of their parent. *)

From Stdlib Require Import Reals Lra Lia ZArith List String.
From Stdlib Require Import DecimalString DecimalNat.
Import ListNotations.
Open Scope R_scope.

(* ================================================================== *)
(** ** The JavaScript runtime *)

Module JS.

(** The sequence of values returned by successive calls of [Math.random]. *)
Definition source : Type := nat -> R.

(** The contract of [Math.random]: every value is in [0, 1). *)
Definition unit_interval (random : source) : Prop :=
  forall k : nat, 0 <= random k < 1.

(** A computation that may call [Math.random]: from the number of calls
    made before it to its result and the number of calls made after it. *)
Definition M (A : Type) : Type := nat -> A * nat.

Definition ret {A : Type} (a : A) : M A := fun k => (a, k).

Definition bind {A B : Type} (m : M A) (f : A -> M B) : M B :=
  fun k => f (fst (m k)) (snd (m k)).

Definition Math_random (random : source) : M R :=
  fun k => (random k, S k).

Definition Math_floor (x : R) : Z := Zfloor x.

(** [arr[i]]: [undefined] (here [None]) when [i] is not an index of [arr]. *)
Definition index {A : Type} (arr : list A) (i : Z) : option A :=
  if (i <? 0)%Z then None else nth_error arr (Z.to_nat i).

(** [f] applied to the indices [i], [i+1], ..., [i+n-1], in that order. *)
Fixpoint map_from {A : Type} (f : nat -> M A) (i n : nat) : M (list A) :=
  match n with
  | O => ret []
  | S n' =>
      bind (f i) (fun a =>
      bind (map_from f (S i) n') (fun rest =>
      ret (a :: rest)))
  end.

(** [[...Array(n)].map((_, i) => f i)]. *)
Definition Array_map {A : Type} (n : nat) (f : nat -> M A) : M (list A) :=
  map_from f 0 n.

(** [Array(n)] for a computed count.  JavaScript raises a RangeError for a
    negative [n]; [Z.to_nat] gives the empty array there.  Every count of
    this program is at least 4 when [Math.random] keeps its contract. *)
Definition Array_length (n : Z) : nat := Z.to_nat n.

End JS.

Import JS.

Declare Scope js_scope.
Delimit Scope js_scope with js.
Notation "x <- m ;; f" := (bind m (fun x => f))
  (at level 61, m at next level, right associativity) : js_scope.
Open Scope js_scope.

(* ================================================================== *)
(** ** React: memoized values *)

Module React.

(** [Object.is] on the values this program lists as dependencies. *)
Class ObjectIs (D : Type) : Type :=
  object_is : forall a b : D, {a = b} + {a <> b}.

#[export] Instance ObjectIs_unit : ObjectIs unit.
Proof. intros [] []. left. reflexivity. Defined.

#[export] Instance ObjectIs_number : ObjectIs R := Req_dec_T.

#[export] Instance ObjectIs_string : ObjectIs string := string_dec.

#[export] Instance ObjectIs_option {A : Type} `{ObjectIs A} :
  ObjectIs (option A).
Proof.
  intros [a|] [b|].
  - destruct (object_is a b) as [e|n].
    + left. rewrite e. reflexivity.
    + right. intro e. apply n. injection e. trivial.
  - right. discriminate.
  - right. discriminate.
  - left. reflexivity.
Defined.

#[export] Instance ObjectIs_pair {A B : Type} `{ObjectIs A} `{ObjectIs B} :
  ObjectIs (A * B).
Proof.
  intros [a b] [a' b'].
  destruct (object_is a a') as [ea|na].
  - destruct (object_is b b') as [eb|nb].
    + left. rewrite ea, eb. reflexivity.
    + right. intro e. apply nb. injection e. trivial.
  - right. intro e. apply na. injection e. trivial.
Defined.

(** The cell of one [useMemo] call site: empty before the first render,
    then the cached value with the dependencies it was computed for. *)
Definition cell (A D : Type) : Type := option (A * D).

(** [useMemo(factory, deps)]: the first render runs [factory]; a later
    render returns the cached value when every dependency is [Object.is]
    the stored one, and runs [factory] again otherwise. *)
Definition useMemo {A D : Type} `{ObjectIs D}
    (factory : M A) (deps : D) (c : cell A D) : M (A * cell A D) :=
  match c with
  | None => v <- factory ;; ret (v, Some (v, deps))
  | Some (v, old) =>
      if object_is old deps then ret (v, c)
      else v' <- factory ;; ret (v', Some (v', deps))
  end.

End React.

Import React.

(* ================================================================== *)
(** ** three.js elements *)

Module Three.

Definition vec3 : Type := (R * R * R)%type.

Inductive geometry : Type :=
| cylinderGeometry (radiusTop radiusBottom height : R) (radialSegments : nat)
| coneGeometry (radius height : R) (radialSegments : nat)
| sphereGeometry (radius : R) (widthSegments heightSegments : nat).

(** [color] is [None] when the expression given for it is [undefined]. *)
Record meshStandardMaterial : Type := {
  color : option string;
  metalness : R;
  roughness : R
}.

Record mesh : Type := {
  mesh_key : option nat;
  mesh_position : vec3;
  mesh_geometry : geometry;
  mesh_material : meshStandardMaterial
}.

(** A child of a group: one element, or an array of elements. *)
Inductive child : Type :=
| one (m : mesh)
| many (ms : list mesh).

(** The props this program passes to a generator, spread on its group. *)
Record groupProps : Type := {
  position : option vec3;
  rotation : option vec3
}.

Record group : Type := {
  props : groupProps;
  children : list child
}.

(** The number of primitives at each place among the children. *)
Definition parts (c : child) : nat :=
  match c with
  | one _ => 1%nat
  | many ms => List.length ms
  end.

Definition topology (g : group) : list nat := map parts (children g).

End Three.

Import Three.

(* ================================================================== *)
(** ** Tree.tsx *)

Record Tree_hooks : Type := {
  Tree_sizeVariation : cell R unit
}.

Definition Tree_unmounted : Tree_hooks := {| Tree_sizeVariation := None |}.

Section Tree.
Variable random : source.

Definition Tree (p : groupProps) (h : Tree_hooks) : M (group * Tree_hooks) :=
  m <- useMemo (r <- Math_random random ;; ret (0.8 + r * 0.6)) tt
         (Tree_sizeVariation h) ;;
  let sizeVariation := fst m in
  ret ({| props := p;
          children :=
            [ one {| mesh_key := None;
                     mesh_position := (0, sizeVariation * 0.4, 0);
                     mesh_geometry :=
                       cylinderGeometry 0.05 0.07 (sizeVariation * 0.8) 8;
                     mesh_material :=
                       {| color := Some "#654321"%string;
                          metalness := 0.1; roughness := 0.9 |} |};
              one {| mesh_key := None;
                     mesh_position := (0, sizeVariation * 0.8 + 0.4, 0);
                     mesh_geometry :=
                       coneGeometry (0.4 * sizeVariation)
                                    (0.8 * sizeVariation) 8;
                     mesh_material :=
                       {| color := Some "#2d5016"%string;
                          metalness := 0.1; roughness := 0.8 |} |} ] |},
       {| Tree_sizeVariation := snd m |}).

End Tree.

(* ================================================================== *)
(** ** Flower.tsx *)

Definition petalColors : list string :=
  ["#ff6b9d"; "#ffa500"; "#ffeb3b"; "#4caf50"; "#2196f3"; "#9c27b0";
   "#f44336"]%string.

Record Flower_hooks : Type := {
  Flower_petalColor : cell (option string) unit
}.

Definition Flower_unmounted : Flower_hooks := {| Flower_petalColor := None |}.

Section Flower.
Variable random : source.

Definition Flower_petal (petalColor : option string) (i : nat) : M mesh :=
  let angle := INR i / 6 * PI * 2 in
  let x := cos angle * 0.15 in
  let z := sin angle * 0.15 in
  ret {| mesh_key := Some i;
         mesh_position := (x, 1.1, z);
         mesh_geometry := sphereGeometry 0.08 8 8;
         mesh_material :=
           {| color := petalColor; metalness := 0.2; roughness := 0.6 |} |}.

Definition Flower (p : groupProps) (h : Flower_hooks)
    : M (group * Flower_hooks) :=
  m <- useMemo
         (r <- Math_random random ;;
          ret (index petalColors
                 (Math_floor (r * INR (List.length petalColors)))))
         tt (Flower_petalColor h) ;;
  let petalColor := fst m in
  petals <- Array_map 6 (Flower_petal petalColor) ;;
  ret ({| props := p;
          children :=
            [ one {| mesh_key := None;
                     mesh_position := (0, 0.5, 0);
                     mesh_geometry := cylinderGeometry 0.02 0.02 1 8;
                     mesh_material :=
                       {| color := Some "#2d5016"%string;
                          metalness := 0.1; roughness := 0.8 |} |};
              many petals;
              one {| mesh_key := None;
                     mesh_position := (0, 1.1, 0);
                     mesh_geometry := sphereGeometry 0.05 8 8;
                     mesh_material :=
                       {| color := Some "#ffeb3b"%string;
                          metalness := 0.3; roughness := 0.5 |} |} ] |},
       {| Flower_petalColor := snd m |}).

End Flower.

(* ================================================================== *)
(** ** FruitPlant.tsx *)

Definition fruitColors : list string :=
  ["#ff4444"; "#ff8800"; "#ffaa00"; "#ff6b35"]%string.

Record FruitPlant_hooks : Type := {
  FruitPlant_fruitColor : cell (option string) unit;
  FruitPlant_heightVariation : cell R unit;
  FruitPlant_fruits : cell (list mesh) (R * option string)
}.

Definition FruitPlant_unmounted : FruitPlant_hooks :=
  {| FruitPlant_fruitColor := None;
     FruitPlant_heightVariation := None;
     FruitPlant_fruits := None |}.

Section FruitPlant.
Variable random : source.

Definition FruitPlant_fruit (heightVariation : R) (fruitColor : option string)
    (i : nat) : M mesh :=
  r1 <- Math_random random ;;
  let angle := INR i / 6 * PI * 2 + r1 * 0.5 in
  r2 <- Math_random random ;;
  let radius := 0.15 + r2 * 0.1 in
  let x := cos angle * radius in
  let z := sin angle * radius in
  r3 <- Math_random random ;;
  let y := heightVariation + 0.2 + r3 * 0.4 in
  ret {| mesh_key := Some i;
         mesh_position := (x, y, z);
         mesh_geometry := sphereGeometry 0.06 8 8;
         mesh_material :=
           {| color := fruitColor; metalness := 0.3; roughness := 0.4 |} |}.

Definition FruitPlant_fruitCount (r : R) : Z := 4 + Math_floor (r * 3).

Definition FruitPlant (p : groupProps) (h : FruitPlant_hooks)
    : M (group * FruitPlant_hooks) :=
  m1 <- useMemo
          (r <- Math_random random ;;
           ret (index fruitColors
                  (Math_floor (r * INR (List.length fruitColors)))))
          tt (FruitPlant_fruitColor h) ;;
  let fruitColor := fst m1 in
  m2 <- useMemo (r <- Math_random random ;; ret (0.7 + r * 0.6)) tt
          (FruitPlant_heightVariation h) ;;
  let heightVariation := fst m2 in
  m3 <- useMemo
          (r <- Math_random random ;;
           let fruitCount := FruitPlant_fruitCount r in
           Array_map (Array_length fruitCount)
             (FruitPlant_fruit heightVariation fruitColor))
          (heightVariation, fruitColor) (FruitPlant_fruits h) ;;
  ret ({| props := p;
          children :=
            [ one {| mesh_key := None;
                     mesh_position := (0, heightVariation * 0.5, 0);
                     mesh_geometry :=
                       cylinderGeometry 0.03 0.04 heightVariation 8;
                     mesh_material :=
                       {| color := Some "#8b4513"%string;
                          metalness := 0.1; roughness := 0.9 |} |};
              one {| mesh_key := None;
                     mesh_position := (0, heightVariation + 0.3, 0);
                     mesh_geometry := coneGeometry 0.25 0.6 8;
                     mesh_material :=
                       {| color := Some "#4caf50"%string;
                          metalness := 0.1; roughness := 0.7 |} |};
              many (fst m3) ] |},
       {| FruitPlant_fruitColor := snd m1;
          FruitPlant_heightVariation := snd m2;
          FruitPlant_fruits := snd m3 |}).

End FruitPlant.

(* ================================================================== *)
(** ** SmallPlant.tsx *)

Definition greenShades : list string :=
  ["#4caf50"; "#2d5016"; "#66bb6a"; "#388e3c"]%string.

Record SmallPlant_hooks : Type := {
  SmallPlant_plantColor : cell (option string) unit;
  SmallPlant_cluster : cell (list mesh) (option string)
}.

Definition SmallPlant_unmounted : SmallPlant_hooks :=
  {| SmallPlant_plantColor := None; SmallPlant_cluster := None |}.

Section SmallPlant.
Variable random : source.

Definition SmallPlant_sphere (plantColor : option string) (i : nat) : M mesh :=
  r1 <- Math_random random ;;
  let x := (r1 - 0.5) * 0.2 in
  r2 <- Math_random random ;;
  let z := (r2 - 0.5) * 0.2 in
  r3 <- Math_random random ;;
  let y := r3 * 0.15 in
  r4 <- Math_random random ;;
  ret {| mesh_key := Some i;
         mesh_position := (x, y, z);
         mesh_geometry := sphereGeometry (0.05 + r4 * 0.03) 6 6;
         mesh_material :=
           {| color := plantColor; metalness := 0.1; roughness := 0.8 |} |}.

Definition SmallPlant_clusterSize (r : R) : Z := 5 + Math_floor (r * 4).

Definition SmallPlant (p : groupProps) (h : SmallPlant_hooks)
    : M (group * SmallPlant_hooks) :=
  m1 <- useMemo
          (r <- Math_random random ;;
           ret (index greenShades
                  (Math_floor (r * INR (List.length greenShades)))))
          tt (SmallPlant_plantColor h) ;;
  let plantColor := fst m1 in
  m2 <- useMemo
          (r <- Math_random random ;;
           let clusterSize := SmallPlant_clusterSize r in
           Array_map (Array_length clusterSize) (SmallPlant_sphere plantColor))
          plantColor (SmallPlant_cluster h) ;;
  ret ({| props := p; children := [ many (fst m2) ] |},
       {| SmallPlant_plantColor := snd m1; SmallPlant_cluster := snd m2 |}).

End SmallPlant.

(* ================================================================== *)
(** ** XRScene.tsx *)

Inductive componentType : Type :=
| type_Flower
| type_FruitPlant
| type_Tree
| type_SmallPlant.

(** An element of one of the generators.  The key [(s, i)] stands for the
    template string made of the prefix [s] followed by the index [i]. *)
Record element : Type := {
  type : componentType;
  key : string * nat;
  element_props : groupProps
}.

Record GridProps : Type := {
  args : R * R;
  grid_position : vec3;
  cellSize : R;
  cellThickness : R;
  cellColor : string;
  sectionSize : R;
  sectionThickness : R;
  sectionColor : string;
  fadeDistance : R;
  fadeStrength : R
}.

(** The children of the XR provider, in the order of the source. *)
Inductive sceneNode : Type :=
| ambientLight (intensity : R)
| directionalLight (light_position : vec3) (intensity : R) (castShadow : bool)
| pointLight (light_position : vec3) (intensity : R) (light_color : string)
| spotLight (light_position : vec3) (angle penumbra intensity : R)
            (castShadow : bool)
| Cube
| PottedPlant (scale : R)
| instances (es : list element)
| Grid (g : GridProps)
| OrbitControls (enablePan enableZoom enableRotate : bool).

Section XRScene.
Variable random : source.

(** The type of the callback [() => void]. *)
Variable Handler : Type.

Record XRSceneProps : Type := {
  onExitXR : option Handler
}.

(** The children of the container div. *)
Inductive domNode : Type :=
| xrButtons
| button (onClick : Handler) (label : string)
| Canvas (camera_position : vec3) (scene : list sceneNode).

Definition flower_item (i : nat) : M element :=
  let angle := INR i / 20 * PI * 2 in
  r1 <- Math_random random ;;
  let distance := 2.5 + r1 * 1.5 in
  let x := cos angle * distance in
  let z := sin angle * distance in
  r2 <- Math_random random ;;
  let rotation := r2 * PI * 2 in
  ret {| type := type_Flower;
         key := ("flower-"%string, i);
         element_props := {| position := Some (x, -1, z);
                             rotation := Some (0, rotation, 0) |} |}.

Definition fruit_item (i : nat) : M element :=
  let angle := INR i / 15 * PI * 2 in
  r1 <- Math_random random ;;
  let distance := 4 + r1 * 2 in
  let x := cos angle * distance in
  let z := sin angle * distance in
  r2 <- Math_random random ;;
  let rotation := r2 * PI * 2 in
  ret {| type := type_FruitPlant;
         key := ("fruit-"%string, i);
         element_props := {| position := Some (x, -1, z);
                             rotation := Some (0, rotation, 0) |} |}.

Definition tree_item (i : nat) : M element :=
  let angle := INR i / 12 * PI * 2 in
  r1 <- Math_random random ;;
  let distance := 6.5 + r1 * 2 in
  let x := cos angle * distance in
  let z := sin angle * distance in
  r2 <- Math_random random ;;
  let rotation := r2 * PI * 2 in
  ret {| type := type_Tree;
         key := ("tree-"%string, i);
         element_props := {| position := Some (x, -1, z);
                             rotation := Some (0, rotation, 0) |} |}.

Definition small_item (i : nat) : M element :=
  r1 <- Math_random random ;;
  let angle := r1 * PI * 2 in
  r2 <- Math_random random ;;
  let distance := 1.5 + r2 * 7 in
  let x := cos angle * distance in
  let z := sin angle * distance in
  ret {| type := type_SmallPlant;
         key := ("small-"%string, i);
         element_props := {| position := Some (x, -1, z);
                             rotation := None |} |}.

Definition flower_extra_item (i : nat) : M element :=
  r1 <- Math_random random ;;
  let angle := r1 * PI * 2 in
  r2 <- Math_random random ;;
  let distance := 1.5 + r2 * 6 in
  let x := cos angle * distance in
  let z := sin angle * distance in
  r3 <- Math_random random ;;
  let rotation := r3 * PI * 2 in
  ret {| type := type_Flower;
         key := ("flower-extra-"%string, i);
         element_props := {| position := Some (x, -1, z);
                             rotation := Some (0, rotation, 0) |} |}.

Definition fruit_extra_item (i : nat) : M element :=
  r1 <- Math_random random ;;
  let angle := r1 * PI * 2 in
  r2 <- Math_random random ;;
  let distance := 2 + r2 * 5 in
  let x := cos angle * distance in
  let z := sin angle * distance in
  r3 <- Math_random random ;;
  let rotation := r3 * PI * 2 in
  ret {| type := type_FruitPlant;
         key := ("fruit-extra-"%string, i);
         element_props := {| position := Some (x, -1, z);
                             rotation := Some (0, rotation, 0) |} |}.

Definition grid : GridProps :=
  {| args := (20, 20);
     grid_position := (0, -1, 0);
     cellSize := 1;
     cellThickness := 0.5;
     cellColor := "#6f6f6f"%string;
     sectionSize := 5;
     sectionThickness := 1;
     sectionColor := "#9d4b4b"%string;
     fadeDistance := 25;
     fadeStrength := 1 |}.

(** [{onExitXR && <button onClick={onExitXR}>Exit XR Mode</button>}]: a
    function is truthy and gives the button; [undefined] renders nothing. *)
Definition exit_button (p : XRSceneProps) : list domNode :=
  match onExitXR p with
  | Some f => [button f "Exit XR Mode"%string]
  | None => []
  end.

Definition XRScene (p : XRSceneProps) : M (list domNode) :=
  flowers <- Array_map 20 flower_item ;;
  fruits <- Array_map 15 fruit_item ;;
  trees <- Array_map 12 tree_item ;;
  smalls <- Array_map 40 small_item ;;
  flowers_extra <- Array_map 25 flower_extra_item ;;
  fruits_extra <- Array_map 18 fruit_extra_item ;;
  ret ([xrButtons] ++ exit_button p ++
       [Canvas (5, 5, 5)
          [ ambientLight 0.4;
            directionalLight (10, 10, 5) 1.0 true;
            pointLight (-10, -10, -5) 0.5 "#ffffff"%string;
            spotLight (0, 10, 0) 0.3 1 0.3 true;
            Cube;
            PottedPlant 10;
            instances flowers;
            instances fruits;
            instances trees;
            instances smalls;
            instances flowers_extra;
            instances fruits_extra;
            Grid grid;
            OrbitControls true true true ]]).

(** What a click on a child of the container div runs, from the state [s] of
    the page: the handler of a button.  The session buttons are those of the
    XR library and the canvas takes no click here; they leave [s] as it is. *)
Definition click {S : Type} (run : Handler -> S -> S) (n : domNode) (s : S)
    : S :=
  match n with
  | button f _ => run f s
  | xrButtons => s
  | Canvas _ _ => s
  end.

End XRScene.

Arguments onExitXR {Handler} _.
Arguments xrButtons {Handler}.
Arguments button {Handler} _ _.
Arguments Canvas {Handler} _ _.
Arguments exit_button {Handler} _.
Arguments XRScene _ {Handler} _.
Arguments click {Handler S} _ _ _.

(* ================================================================== *)
(** ** Observations on what is rendered *)

(** The instance groups of a rendered page: the arrays of generator
    elements among the children of the XR provider, in order. *)
Definition scene_nodes {Handler : Type} (dom : list (domNode Handler))
    : list sceneNode :=
  flat_map (fun n => match n with
                     | Canvas _ scene => scene
                     | _ => []
                     end) dom.

Definition instance_groups {Handler : Type} (dom : list (domNode Handler))
    : list (list element) :=
  flat_map (fun c => match c with
                     | instances es => [es]
                     | _ => []
                     end) (scene_nodes dom).

(** The exit buttons of a rendered page, by their click handler. *)
Definition exit_buttons {Handler : Type} (dom : list (domNode Handler))
    : list Handler :=
  flat_map (fun n => match n with
                     | button f _ => [f]
                     | _ => []
                     end) dom.

(** A position [(x, y, z)]: its height [y], its place [(x, z)] on the
    ground plane and its distance from the vertical axis. *)
Definition height (v : vec3) : R := snd (fst v).

Definition ground (v : vec3) : R * R := (fst (fst v), snd v).

Definition radius (v : vec3) : R :=
  sqrt (fst (fst v) * fst (fst v) + snd v * snd v).

(** The point of the ground plane at angle [a] and distance [d]. *)
Definition polar (a d : R) : R * R := (cos a * d, sin a * d).

(** The angle of index [i] on a ring of [N] evenly spaced places. *)
Definition ring_angle (N i : nat) : R := 2 * PI * INR i / INR N.

(** The two shapes of position the scene computes, from the draws made after
    [k] calls: on a ring of [n] places, index [i] with one draw for the
    distance; on the disc, one draw for the angle and one for the distance. *)
Definition ring_place (random : source) (n lo span : R) (i k : nat) : vec3 :=
  (cos (INR i / n * PI * 2) * (lo + random k * span),
   -1,
   sin (INR i / n * PI * 2) * (lo + random k * span)).

Definition disc_place (random : source) (lo span : R) (k : nat) : vec3 :=
  (cos (random k * PI * 2) * (lo + random (S k) * span),
   -1,
   sin (random k * PI * 2) * (lo + random (S k) * span)).

(** A ring tier: [N] elements of the generator [c], the i-th at angle
    2.pi.i/N, each at a distance within the band; consecutive angles are
    2.pi/N apart. *)
Definition ring_tier (c : componentType) (N : nat) (lo hi : R)
    (es : list element) : Prop :=
  List.length es = N /\
  (forall i : nat, (i < N)%nat ->
     exists e v,
       nth_error es i = Some e /\
       type e = c /\
       position (element_props e) = Some v /\
       ground v = polar (ring_angle N i) (radius v) /\
       lo <= radius v <= hi) /\
  (forall i : nat, ring_angle N (S i) - ring_angle N i = 2 * PI / INR N).

(** A disc-scattered group made after [first] calls of [Math.random], with
    [calls] calls for each element: [N] elements of the generator [c]; the
    angle of the i-th is the first draw of its callback, the draw of index
    [first + calls * i], scaled to a turn, an angle of [0, 2.pi); its
    distance is within the band. *)
Definition disc_fill (random : source) (c : componentType) (N : nat)
    (lo hi : R) (first calls : nat) (es : list element) : Prop :=
  List.length es = N /\
  forall i : nat, (i < N)%nat ->
    exists e v a,
      nth_error es i = Some e /\
      type e = c /\
      position (element_props e) = Some v /\
      a = random (first + calls * i)%nat * PI * 2 /\
      0 <= a < 2 * PI /\
      ground v = polar a (radius v) /\
      lo <= radius v <= hi.

(** A group as a function of the random source, and the g-th group of the
    page rendered after [k] calls of [Math.random]. *)
Definition group_fn : Type := source -> list element.

Definition scene_group {Handler : Type} (p : XRSceneProps Handler)
    (k g : nat) : group_fn :=
  fun random => nth g (instance_groups (fst (XRScene random p k))) [].

(** Ring sampling: whatever the draws, the i-th element is on the ray at
    angle 2.pi.i/N, away from the centre. *)
Definition ring_sampled (G : group_fn) : Prop :=
  forall random : source, unit_interval random ->
  forall (i : nat) (e : element), nth_error (G random) i = Some e ->
    exists v,
      position (element_props e) = Some v /\
      0 < radius v /\
      ground v = polar (ring_angle (List.length (G random)) i) (radius v).

(** Disc sampling: the angle of every element is a draw scaled to a turn. *)
Definition disc_sampled (G : group_fn) : Prop :=
  forall random : source, unit_interval random ->
  forall e : element, In e (G random) ->
    exists v j,
      position (element_props e) = Some v /\
      0 < radius v /\
      ground v = polar (random j * PI * 2) (radius v).

(** A group of [n] elements, all of one generator. *)
Definition group_of (c : componentType) (n : nat) (G : group_fn) : Prop :=
  forall random : source,
    List.length (G random) = n /\
    forall e : element, In e (G random) -> type e = c.

(** The g-th group is a ring tier of [n] elements of the generator [c]: it
    has elements, [n] of them and all of [c], and is ring-sampled. *)
Definition ring_tier_of {Handler : Type} (p : XRSceneProps Handler)
    (k : nat) (c : componentType) (n g : nat) : Prop :=
  (0 < n)%nat /\
  group_of c n (scene_group p k g) /\
  ring_sampled (scene_group p k g).

(** The g-th group is a disc scatter of [n] elements of the generator [c]:
    it has elements, [n] of them and all of [c], and is disc-sampled and not
    ring-sampled. *)
Definition disc_scatter_of {Handler : Type} (p : XRSceneProps Handler)
    (k : nat) (c : componentType) (n g : nat) : Prop :=
  (0 < n)%nat /\
  group_of c n (scene_group p k g) /\
  disc_sampled (scene_group p k g) /\
  ~ ring_sampled (scene_group p k g).

(** The props of a page rendered without an exit callback. *)
Definition no_exit : XRSceneProps unit := {| onExitXR := None |}.

(** Re-rendering a mounted instance [n] times with the same props, each
    render starting from the hooks left by the one before. *)
Fixpoint rerender {P G H : Type} (render : P -> H -> M (G * H)) (p : P)
    (n : nat) (gh : G * H) : M (G * H) :=
  match n with
  | O => ret gh
  | S n' => gh' <- render p (snd gh) ;; rerender render p n' gh'
  end.

(** An instance mounted after [k] calls of [Math.random] is stable: any
    number of re-renders, started at any later time [k'], gives back the
    group and the hooks of the mount and calls [Math.random] not once. *)
Definition stable_after_mount {P G H : Type} (render : P -> H -> M (G * H))
    (p : P) (unmounted : H) (k : nat) : Prop :=
  forall n k' : nat,
    rerender render p n (fst (render p unmounted k)) k'
    = (fst (render p unmounted k), k').

(** A source that gives the same value at every call. *)
Definition always (c : R) : source := fun _ => c.

Definition no_props : groupProps := {| position := None; rotation := None |}.

(* ================================================================== *)
(** ** Further observations *)

(** The string of a key: the template literal, its prefix followed by the
    index in decimal. *)
Definition key_string (k : string * nat) : string :=
  (fst k ++ NilEmpty.string_of_uint (Nat.to_uint (snd k)))%string.

(** The extent of a primitive along the vertical axis.  A geometry of
    three.js is centred on the position of its mesh: a cylinder or a cone of
    height [h] reaches [h / 2] below and above it, a sphere its radius. *)
Definition half_height (g : geometry) : R :=
  match g with
  | cylinderGeometry _ _ h _ => h / 2
  | coneGeometry _ h _ => h / 2
  | sphereGeometry r _ _ => r
  end.

Definition bottom (m : mesh) : R :=
  height (mesh_position m) - half_height (mesh_geometry m).

Definition top (m : mesh) : R :=
  height (mesh_position m) + half_height (mesh_geometry m).

(** The square of the reference grid: [args] gives its two sides and
    [grid_position] its centre. *)
Definition on_grid (g : GridProps) (v : vec3) : Prop :=
  Rabs (fst (fst v) - fst (fst (grid_position g))) <= fst (args g) / 2 /\
  Rabs (snd v - snd (grid_position g)) <= snd (args g) / 2.

(** What React reads of an element to tell which instance it renders. *)
Definition identity (e : element) : componentType * string :=
  (type e, key_string (key e)).

(* ================================================================== *)
(** * Properties *)

(** ** The runtime *)

Section MapFrom.
Context {A : Type}.
Variable f : nat -> M A.
Variable c : nat.
Hypothesis f_draws : forall i k : nat, snd (f i k) = (k + c)%nat.

Lemma map_from_calls (n i k : nat) :
  snd (map_from f i n k) = (k + c * n)%nat.
Proof.
  revert i k. induction n as [|n IH]; intros i k.
  - simpl. unfold ret. simpl. lia.
  - simpl. unfold bind, ret. simpl. rewrite IH, f_draws. lia.
Qed.

Lemma map_from_length (n i k : nat) :
  List.length (fst (map_from f i n k)) = n.
Proof.
  revert i k. induction n as [|n IH]; intros i k.
  - reflexivity.
  - simpl. unfold bind, ret. simpl. rewrite IH. reflexivity.
Qed.

Lemma map_from_nth (n i k j : nat) :
  (j < n)%nat ->
  nth_error (fst (map_from f i n k)) j = Some (fst (f (i + j)%nat (k + c * j)%nat)).
Proof.
  revert i k j. induction n as [|n IH]; intros i k j Hj.
  - lia.
  - simpl. unfold bind, ret. simpl. destruct j as [|j].
    + simpl. rewrite Nat.add_0_r, Nat.mul_0_r, Nat.add_0_r. reflexivity.
    + simpl. rewrite IH by lia. rewrite f_draws.
      replace (S i + j)%nat with (i + S j)%nat by lia.
      replace (k + c + c * j)%nat with (k + c * S j)%nat by lia.
      reflexivity.
Qed.

Lemma map_from_all (P : A -> Prop) (n i k : nat) :
  (forall j l : nat, P (fst (f j l))) ->
  forall a : A, In a (fst (map_from f i n k)) -> P a.
Proof.
  intros HP. revert i k. induction n as [|n IH]; intros i k a Ha.
  - contradiction.
  - simpl in Ha. unfold bind, ret in Ha. simpl in Ha.
    destruct Ha as [<-|Ha]; [apply HP|]. apply (IH _ _ _ Ha).
Qed.

Lemma map_from_In (n i k : nat) (a : A) :
  In a (fst (map_from f i n k)) ->
  exists j : nat, (j < n)%nat /\ a = fst (f (i + j)%nat (k + c * j)%nat).
Proof.
  intros Ha. apply In_nth_error in Ha. destruct Ha as [j Hj].
  assert (Hlt : (j < n)%nat).
  { rewrite <- (map_from_length n i k). apply nth_error_Some.
    rewrite Hj. discriminate. }
  exists j. split; [exact Hlt|].
  rewrite (map_from_nth n i k j Hlt) in Hj. congruence.
Qed.

End MapFrom.

(** [Math.floor(r * n)] for a draw [r] of [0, 1) is one of 0, ..., n-1. *)
Lemma floor_scaled_range (r : R) (n : Z) :
  0 <= r < 1 -> (0 < n)%Z -> (0 <= Math_floor (r * IZR n) < n)%Z.
Proof.
  intros Hr Hn. unfold Math_floor.
  pose proof (Zfloor_bound (r * IZR n)) as Hb.
  assert (Hpos : 0 < IZR n) by (apply IZR_lt; exact Hn).
  split.
  - apply Zfloor_lub. simpl. nra.
  - apply lt_IZR. nra.
Qed.

Lemma index_in_range {A : Type} (arr : list A) (i : Z) :
  (0 <= i < Z.of_nat (List.length arr))%Z ->
  exists a : A, index arr i = Some a /\ In a arr.
Proof.
  intros Hi. unfold index.
  destruct (Z.ltb_spec i 0) as [Hneg|_]; [lia|].
  destruct (nth_error arr (Z.to_nat i)) as [a|] eqn:E.
  - exists a. split; [reflexivity|]. eapply nth_error_In. exact E.
  - apply nth_error_None in E. lia.
Qed.

(** A colour picked as [palette[Math.floor(Math.random() * palette.length)]]. *)
Lemma palette_pick (palette : list string) (r : R) :
  0 <= r < 1 -> palette <> [] ->
  exists c : string,
    index palette (Math_floor (r * INR (List.length palette))) = Some c /\
    In c palette.
Proof.
  intros Hr Hne. apply index_in_range.
  rewrite INR_IZR_INZ. apply floor_scaled_range; [exact Hr|].
  destruct palette; [congruence|]. simpl List.length. lia.
Qed.

(** The distance from the axis of the point at angle [a] and distance [d]. *)
Lemma radius_polar (a d y : R) :
  0 <= d -> radius (cos a * d, y, sin a * d) = d.
Proof.
  intros Hd. unfold radius. simpl.
  replace (cos a * d * (cos a * d) + sin a * d * (sin a * d))
    with (d * d * ((sin a)² + (cos a)²)) by (unfold Rsqr; ring).
  rewrite sin2_cos2, Rmult_1_r. apply sqrt_square. exact Hd.
Qed.

Lemma ring_angle_step (N i : nat) :
  (0 < N)%nat -> ring_angle N (S i) - ring_angle N i = 2 * PI / INR N.
Proof.
  intros HN. unfold ring_angle. rewrite S_INR.
  assert (INR N <> 0) by (apply not_0_INR; lia).
  field. assumption.
Qed.

(** ** The code on concrete draws *)

Example useMemo_first_render :
  useMemo (Math_random (always (1 / 2))) tt None 3%nat
  = ((1 / 2, Some (1 / 2, tt)), 4%nat).
Proof. reflexivity. Qed.

(** A render whose dependencies differ from those stored runs the factory
    again and stores the new dependencies. *)
Lemma useMemo_recomputes {A D : Type} `{ObjectIs D} (factory : M A)
    (d d' : D) (v : A) (k : nat) :
  d <> d' ->
  useMemo factory d' (Some (v, d)) k
  = ((fst (factory k), Some (fst (factory k), d')), snd (factory k)).
Proof.
  intros Hd. unfold useMemo.
  destruct (object_is d d') as [e|_]; [contradiction|]. reflexivity.
Qed.

Example Tree_at_half :
  Tree_sizeVariation
    (snd (fst (Tree (always (1 / 2)) no_props Tree_unmounted 0%nat)))
  = Some (0.8 + 1 / 2 * 0.6, tt)
  /\ snd (Tree (always (1 / 2)) no_props Tree_unmounted 0%nat) = 1%nat.
Proof. split; reflexivity. Qed.

Example first_flower_at_zero :
  position (element_props (fst (flower_item (always 0) 0%nat 0%nat)))
  = Some (2.5, -1, 0).
Proof.
  unfold flower_item, bind, ret, Math_random, always. cbn [fst snd element_props position].
  replace (INR 0 / 20 * PI * 2) with 0 by (simpl; field).
  rewrite cos_0, sin_0. do 3 f_equal; lra.
Qed.

Example clusterSize_at_0_99 : SmallPlant_clusterSize 0.99 = 8%Z.
Proof.
  unfold SmallPlant_clusterSize, Math_floor.
  replace (Zfloor (0.99 * 4)) with 3%Z by (symmetry; apply Zfloor_eq; simpl; lra).
  reflexivity.
Qed.

(** ** The generators: ranges of the style parameters *)

(** C3: for every draw in [0, 1), the size factor memoized by a mounted Tree
    is within [0.8, 1.4] and the height factor memoized by a mounted
    FruitPlant is within [0.7, 1.3]. *)
Theorem style_factor_ranges (random : source) (p : groupProps) (k : nat) :
  unit_interval random ->
  (exists sizeVariation : R,
     Tree_sizeVariation (snd (fst (Tree random p Tree_unmounted k)))
       = Some (sizeVariation, tt) /\
     0.8 <= sizeVariation <= 1.4) /\
  (exists heightVariation : R,
     FruitPlant_heightVariation
       (snd (fst (FruitPlant random p FruitPlant_unmounted k)))
       = Some (heightVariation, tt) /\
     0.7 <= heightVariation <= 1.3).
Proof.
  intros Hr. split.
  - exists (0.8 + random k * 0.6). split; [reflexivity|].
    specialize (Hr k). lra.
  - exists (0.7 + random (S k) * 0.6). split; [reflexivity|].
    specialize (Hr (S k)). lra.
Qed.

(** C8: for every draw in [0, 1), the palette index computed by Flower
    (7 petal colours), FruitPlant (4 fruit colours) and SmallPlant (4 green
    shades) is an index of the palette, and the colour memoized by the
    mounted instance is a colour of the palette, never [undefined]. *)
Theorem palette_index_valid (random : source) (p : groupProps) (k : nat) :
  unit_interval random ->
  ((0 <= Math_floor (random k * INR (List.length petalColors)) < 7)%Z /\
   exists c : string,
     In c petalColors /\
     Flower_petalColor (snd (fst (Flower random p Flower_unmounted k)))
       = Some (Some c, tt)) /\
  ((0 <= Math_floor (random k * INR (List.length fruitColors)) < 4)%Z /\
   exists c : string,
     In c fruitColors /\
     FruitPlant_fruitColor
       (snd (fst (FruitPlant random p FruitPlant_unmounted k)))
       = Some (Some c, tt)) /\
  ((0 <= Math_floor (random k * INR (List.length greenShades)) < 4)%Z /\
   exists c : string,
     In c greenShades /\
     SmallPlant_plantColor
       (snd (fst (SmallPlant random p SmallPlant_unmounted k)))
       = Some (Some c, tt)).
Proof.
  intros Hr. specialize (Hr k).
  split; [|split]; (split;
    [ rewrite INR_IZR_INZ; apply floor_scaled_range; [exact Hr|simpl; lia] | ]).
  - destruct (palette_pick petalColors (random k) Hr) as [c [Hc Hin]];
      [discriminate|].
    exists c. split; [exact Hin|].
    simpl. unfold bind, ret, Math_random. simpl fst. rewrite <- Hc. reflexivity.
  - destruct (palette_pick fruitColors (random k) Hr) as [c [Hc Hin]];
      [discriminate|].
    exists c. split; [exact Hin|].
    simpl. unfold bind, ret, Math_random. simpl fst. rewrite <- Hc. reflexivity.
  - destruct (palette_pick greenShades (random k) Hr) as [c [Hc Hin]];
      [discriminate|].
    exists c. split; [exact Hin|].
    simpl. unfold bind, ret, Math_random. simpl fst. rewrite <- Hc. reflexivity.
Qed.

(** ** The generators: primitive topology *)

Lemma FruitPlant_fruit_calls (random : source) (hv : R) (fc : option string)
    (i k : nat) :
  snd (FruitPlant_fruit random hv fc i k) = (k + 3)%nat.
Proof. unfold FruitPlant_fruit, bind, ret, Math_random. simpl. lia. Qed.

Lemma SmallPlant_sphere_calls (random : source) (pc : option string)
    (i k : nat) :
  snd (SmallPlant_sphere random pc i k) = (k + 4)%nat.
Proof. unfold SmallPlant_sphere, bind, ret, Math_random. simpl. lia. Qed.

(** The children of a mounted FruitPlant: a trunk, a cone of leaves and the
    array of fruits, whose length is decided by the third draw. *)
Lemma FruitPlant_children (random : source) (p : groupProps) (k : nat) :
  exists (trunk leaves : mesh) (fruits : list mesh),
    children (fst (fst (FruitPlant random p FruitPlant_unmounted k)))
      = [one trunk; one leaves; many fruits] /\
    List.length fruits
      = Array_length (FruitPlant_fruitCount (random (S (S k)))) /\
    forall m : mesh, In m fruits -> mesh_geometry m = sphereGeometry 0.06 8 8.
Proof.
  do 3 eexists. split; [reflexivity|]. split.
  - unfold Array_map. apply map_from_length.
  - intros m Hm. unfold Array_map in Hm.
    apply (map_from_In _ 3 (FruitPlant_fruit_calls random _ _)) in Hm.
    destruct Hm as [j [_ Hj]]. rewrite Hj. reflexivity.
Qed.

(** The children of a mounted SmallPlant: the array of spheres of the
    cluster, whose length is decided by the second draw. *)
Lemma SmallPlant_children (random : source) (p : groupProps) (k : nat) :
  exists cluster : list mesh,
    children (fst (fst (SmallPlant random p SmallPlant_unmounted k)))
      = [many cluster] /\
    List.length cluster
      = Array_length (SmallPlant_clusterSize (random (S k))) /\
    forall m : mesh, In m cluster ->
      exists r : R, mesh_geometry m = sphereGeometry r 6 6.
Proof.
  eexists. split; [reflexivity|]. split.
  - unfold Array_map. apply map_from_length.
  - intros m Hm. unfold Array_map in Hm.
    apply (map_from_In _ 4 (SmallPlant_sphere_calls random _)) in Hm.
    destruct Hm as [j [_ Hj]]. rewrite Hj. eexists. reflexivity.
Qed.

Lemma FruitPlant_topology (random : source) (p : groupProps) (k : nat) :
  topology (fst (fst (FruitPlant random p FruitPlant_unmounted k)))
  = [1%nat; 1%nat; Array_length (FruitPlant_fruitCount (random (S (S k))))].
Proof.
  destruct (FruitPlant_children random p k) as [t [l [fs [Hc [Hn _]]]]].
  unfold topology. rewrite Hc. simpl. rewrite Hn. reflexivity.
Qed.

Lemma SmallPlant_topology (random : source) (p : groupProps) (k : nat) :
  topology (fst (fst (SmallPlant random p SmallPlant_unmounted k)))
  = [Array_length (SmallPlant_clusterSize (random (S k)))].
Proof.
  destruct (SmallPlant_children random p k) as [cl [Hc [Hn _]]].
  unfold topology. rewrite Hc. simpl. rewrite Hn. reflexivity.
Qed.

Lemma fruitCount_range (r : R) :
  0 <= r < 1 -> (4 <= Array_length (FruitPlant_fruitCount r) <= 6)%nat.
Proof.
  intros Hr. unfold Array_length, FruitPlant_fruitCount.
  pose proof (floor_scaled_range r 3 Hr ltac:(lia)). lia.
Qed.

Lemma clusterSize_range (r : R) :
  0 <= r < 1 -> (5 <= Array_length (SmallPlant_clusterSize r) <= 8)%nat.
Proof.
  intros Hr. unfold Array_length, SmallPlant_clusterSize.
  pose proof (floor_scaled_range r 4 Hr ltac:(lia)). lia.
Qed.

(** C10: for every draw in [0, 1), a mounted FruitPlant bears between 4 and
    6 fruit spheres and the cluster of a mounted SmallPlant has between 5
    and 8 spheres. *)
Theorem sub_part_counts (random : source) (p : groupProps) (k : nat) :
  unit_interval random ->
  (exists (trunk leaves : mesh) (fruits : list mesh),
     children (fst (fst (FruitPlant random p FruitPlant_unmounted k)))
       = [one trunk; one leaves; many fruits] /\
     (4 <= List.length fruits <= 6)%nat /\
     forall m : mesh, In m fruits ->
       exists r : R, mesh_geometry m = sphereGeometry r 8 8) /\
  (exists cluster : list mesh,
     children (fst (fst (SmallPlant random p SmallPlant_unmounted k)))
       = [many cluster] /\
     (5 <= List.length cluster <= 8)%nat /\
     forall m : mesh, In m cluster ->
       exists r : R, mesh_geometry m = sphereGeometry r 6 6).
Proof.
  intros Hr. split.
  - destruct (FruitPlant_children random p k) as [t [l [fs [Hc [Hn Hs]]]]].
    exists t, l, fs. split; [exact Hc|]. split.
    + rewrite Hn. apply fruitCount_range. apply Hr.
    + intros m Hm. exists 0.06. apply Hs. exact Hm.
  - destruct (SmallPlant_children random p k) as [cl [Hc [Hn Hs]]].
    exists cl. split; [exact Hc|]. split.
    + rewrite Hn. apply clusterSize_range. apply Hr.
    + exact Hs.
Qed.



(** ** The generators: one-time randomization *)

Lemma object_is_same {D : Type} `{ObjectIs D} {A : Type} (d : D) (x y : A) :
  (if object_is d d then x else y) = x.
Proof. destruct (object_is d d) as [_|n]; [reflexivity|contradiction]. Qed.

(** A render whose dependencies are those stored returns the cached value
    and does not run the factory. *)
Lemma useMemo_cached {A D : Type} `{ObjectIs D} (factory : M A) (d : D)
    (v : A) (k : nat) :
  useMemo factory d (Some (v, d)) k = ((v, Some (v, d)), k).
Proof. unfold useMemo. rewrite object_is_same. reflexivity. Qed.

Lemma rerender_fixed {P G H : Type} (render : P -> H -> M (G * H)) (p : P)
    (gh : G * H) :
  (forall k : nat, render p (snd gh) k = (gh, k)) ->
  forall n k : nat, rerender render p n gh k = (gh, k).
Proof.
  intros Hfix n. induction n as [|n IH]; intros k.
  - reflexivity.
  - simpl. unfold bind. rewrite Hfix. simpl. apply IH.
Qed.

Lemma Tree_rerender (random : source) (p : groupProps) (k k' : nat) :
  Tree random p (snd (fst (Tree random p Tree_unmounted k))) k'
  = (fst (Tree random p Tree_unmounted k), k').
Proof. reflexivity. Qed.

Lemma Flower_rerender (random : source) (p : groupProps) (k k' : nat) :
  Flower random p (snd (fst (Flower random p Flower_unmounted k))) k'
  = (fst (Flower random p Flower_unmounted k), k').
Proof. reflexivity. Qed.

Lemma FruitPlant_rerender (random : source) (p : groupProps) (k k' : nat) :
  FruitPlant random p (snd (fst (FruitPlant random p FruitPlant_unmounted k))) k'
  = (fst (FruitPlant random p FruitPlant_unmounted k), k').
Proof.
  unfold FruitPlant, bind. cbn -[object_is Array_map Q2R].
  rewrite !object_is_same. 
  reflexivity.
Qed.

Lemma SmallPlant_rerender (random : source) (p : groupProps) (k k' : nat) :
  SmallPlant random p (snd (fst (SmallPlant random p SmallPlant_unmounted k))) k'
  = (fst (SmallPlant random p SmallPlant_unmounted k), k').
Proof.
  unfold SmallPlant, bind. cbn -[object_is Array_map Q2R].
  rewrite !object_is_same. reflexivity.
Qed.

(** The draws of a mount: one for a Tree and for a Flower; three and three
    more for each fruit for a FruitPlant; two and four more for each sphere
    for a SmallPlant. *)
Lemma mount_calls (random : source) (p : groupProps) (k : nat) :
  snd (Tree random p Tree_unmounted k) = S k /\
  snd (Flower random p Flower_unmounted k) = S k /\
  snd (FruitPlant random p FruitPlant_unmounted k)
    = (k + 3 + 3 * Array_length (FruitPlant_fruitCount (random (S (S k)))))%nat /\
  snd (SmallPlant random p SmallPlant_unmounted k)
    = (k + 2 + 4 * Array_length (SmallPlant_clusterSize (random (S k))))%nat.
Proof.
  split; [reflexivity|]. split; [reflexivity|]. split.
  - unfold FruitPlant, bind. cbn -[Array_map Q2R Array_length FruitPlant_fruitCount].
    unfold Array_map.
    rewrite (map_from_calls _ 3 (FruitPlant_fruit_calls random _ _)). lia.
  - unfold SmallPlant, bind. cbn -[Array_map Q2R Array_length SmallPlant_clusterSize].
    unfold Array_map.
    rewrite (map_from_calls _ 4 (SmallPlant_sphere_calls random _)). lia.
Qed.

(** C5: the randomized style parameters of a generator instance (size or
    height factor, colour, number and placement of sub-parts) are computed
    at its mount and never again: however many times the mounted instance
    is rendered again with the same props, and whenever, the rendered group
    and the memoized values are those of the mount and [Math.random] is not
    called. *)
Theorem memoized_style_is_stable (random : source) (p : groupProps) (k : nat) :
  stable_after_mount (Tree random) p Tree_unmounted k /\
  stable_after_mount (Flower random) p Flower_unmounted k /\
  stable_after_mount (FruitPlant random) p FruitPlant_unmounted k /\
  stable_after_mount (SmallPlant random) p SmallPlant_unmounted k.
Proof.
  unfold stable_after_mount.
  split; [|split; [|split]]; intros n k'; apply rerender_fixed; intros k''.
  - apply Tree_rerender.
  - apply Flower_rerender.
  - apply FruitPlant_rerender.
  - apply SmallPlant_rerender.
Qed.

(** ** The scene: what each callback computes *)

Section Items.
Variable random : source.

Lemma flower_item_calls (i k : nat) :
  snd (flower_item random i k) = (k + 2)%nat.
Proof. unfold flower_item, bind, ret, Math_random. simpl. lia. Qed.

Lemma fruit_item_calls (i k : nat) :
  snd (fruit_item random i k) = (k + 2)%nat.
Proof. unfold fruit_item, bind, ret, Math_random. simpl. lia. Qed.

Lemma tree_item_calls (i k : nat) :
  snd (tree_item random i k) = (k + 2)%nat.
Proof. unfold tree_item, bind, ret, Math_random. simpl. lia. Qed.

Lemma small_item_calls (i k : nat) :
  snd (small_item random i k) = (k + 2)%nat.
Proof. unfold small_item, bind, ret, Math_random. simpl. lia. Qed.

Lemma flower_extra_item_calls (i k : nat) :
  snd (flower_extra_item random i k) = (k + 3)%nat.
Proof. unfold flower_extra_item, bind, ret, Math_random. simpl. lia. Qed.

Lemma fruit_extra_item_calls (i k : nat) :
  snd (fruit_extra_item random i k) = (k + 3)%nat.
Proof. unfold fruit_extra_item, bind, ret, Math_random. simpl. lia. Qed.

Lemma flower_item_place (i k : nat) :
  position (element_props (fst (flower_item random i k)))
  = Some (ring_place random 20 2.5 1.5 i k).
Proof. reflexivity. Qed.

Lemma fruit_item_place (i k : nat) :
  position (element_props (fst (fruit_item random i k)))
  = Some (ring_place random 15 4 2 i k).
Proof. reflexivity. Qed.

Lemma tree_item_place (i k : nat) :
  position (element_props (fst (tree_item random i k)))
  = Some (ring_place random 12 6.5 2 i k).
Proof. reflexivity. Qed.

Lemma small_item_place (i k : nat) :
  position (element_props (fst (small_item random i k)))
  = Some (disc_place random 1.5 7 k).
Proof. reflexivity. Qed.

Lemma flower_extra_item_place (i k : nat) :
  position (element_props (fst (flower_extra_item random i k)))
  = Some (disc_place random 1.5 6 k).
Proof. reflexivity. Qed.

Lemma fruit_extra_item_place (i k : nat) :
  position (element_props (fst (fruit_extra_item random i k)))
  = Some (disc_place random 2 5 k).
Proof. reflexivity. Qed.

End Items.

(** The children of the XR provider, with the array of each group and the
    number of calls of [Math.random] made before it. *)
Lemma XRScene_scene {Handler : Type} (random : source)
    (p : XRSceneProps Handler) (k : nat) :
  scene_nodes (fst (XRScene random p k))
  = [ ambientLight 0.4;
      directionalLight (10, 10, 5) 1.0 true;
      pointLight (-10, -10, -5) 0.5 "#ffffff"%string;
      spotLight (0, 10, 0) 0.3 1 0.3 true;
      Cube;
      PottedPlant 10;
      instances (fst (Array_map 20 (flower_item random) k));
      instances (fst (Array_map 15 (fruit_item random) (k + 40)%nat));
      instances (fst (Array_map 12 (tree_item random) (k + 70)%nat));
      instances (fst (Array_map 40 (small_item random) (k + 94)%nat));
      instances (fst (Array_map 25 (flower_extra_item random) (k + 174)%nat));
      instances (fst (Array_map 18 (fruit_extra_item random) (k + 249)%nat));
      Grid grid;
      OrbitControls true true true ].
Proof.
  unfold XRScene, bind, Array_map.
  rewrite (map_from_calls _ 2 (flower_item_calls random)).
  rewrite (map_from_calls _ 2 (fruit_item_calls random)).
  rewrite (map_from_calls _ 2 (tree_item_calls random)).
  rewrite (map_from_calls _ 2 (small_item_calls random)).
  rewrite (map_from_calls _ 3 (flower_extra_item_calls random)).
  replace (k + 2 * 20)%nat with (k + 40)%nat by lia.
  replace (k + 40 + 2 * 15)%nat with (k + 70)%nat by lia.
  replace (k + 70 + 2 * 12)%nat with (k + 94)%nat by lia.
  replace (k + 94 + 2 * 40)%nat with (k + 174)%nat by lia.
  replace (k + 174 + 3 * 25)%nat with (k + 249)%nat by lia.
  unfold ret, scene_nodes, exit_button.
  destruct (onExitXR p); reflexivity.
Qed.

(** ** The scene: ring and disc places *)

Lemma ring_place_facts (random : source) (N : nat) (n lo span : R)
    (i k : nat) :
  n = INR N -> 0 <= lo -> 0 <= span -> 0 <= random k < 1 ->
  height (ring_place random n lo span i k) = -1 /\
  radius (ring_place random n lo span i k) = lo + random k * span /\
  ground (ring_place random n lo span i k)
    = polar (ring_angle N i) (radius (ring_place random n lo span i k)) /\
  lo <= radius (ring_place random n lo span i k) <= lo + span.
Proof.
  intros Hn Hlo Hspan Hr.
  assert (Hd : 0 <= lo + random k * span) by nra.
  assert (Hrad : radius (ring_place random n lo span i k)
                 = lo + random k * span).
  { unfold ring_place. apply radius_polar. exact Hd. }
  split; [reflexivity|]. split; [exact Hrad|]. split.
  - rewrite Hrad. unfold ring_place, ground, polar, ring_angle. simpl.
    subst n.
    replace (INR i / INR N * PI * 2) with (2 * PI * INR i / INR N)
      by (unfold Rdiv; ring).
    reflexivity.
  - rewrite Hrad. nra.
Qed.

Lemma disc_place_facts (random : source) (lo span : R) (k : nat) :
  0 <= lo -> 0 <= span -> 0 <= random k < 1 -> 0 <= random (S k) < 1 ->
  height (disc_place random lo span k) = -1 /\
  radius (disc_place random lo span k) = lo + random (S k) * span /\
  ground (disc_place random lo span k)
    = polar (random k * PI * 2) (radius (disc_place random lo span k)) /\
  0 <= random k * PI * 2 < 2 * PI /\
  lo <= radius (disc_place random lo span k) <= lo + span.
Proof.
  intros Hlo Hspan Ha Hr.
  assert (Hd : 0 <= lo + random (S k) * span) by nra.
  assert (Hrad : radius (disc_place random lo span k)
                 = lo + random (S k) * span).
  { unfold disc_place. apply radius_polar. exact Hd. }
  pose proof PI_RGT_0 as Hpi.
  split; [reflexivity|]. split; [exact Hrad|]. split; [|split].
  - rewrite Hrad. reflexivity.
  - nra.
  - rewrite Hrad. nra.
Qed.

(** The elements of a group, when every callback makes [c] calls, builds an
    element of the generator [t] and places it at [place i k]. *)
Section Groups.
Variable item : nat -> M element.
Variable c : nat.
Variable t : componentType.
Variable place : nat -> nat -> vec3.
Hypothesis item_calls : forall i k : nat, snd (item i k) = (k + c)%nat.
Hypothesis item_type : forall i k : nat, type (fst (item i k)) = t.
Hypothesis item_place : forall i k : nat,
  position (element_props (fst (item i k))) = Some (place i k).

Lemma group_length (N k : nat) :
  List.length (fst (Array_map N item k)) = N.
Proof. unfold Array_map. apply map_from_length. Qed.

Lemma group_nth (N k i : nat) :
  (i < N)%nat ->
  exists e : element,
    nth_error (fst (Array_map N item k)) i = Some e /\
    type e = t /\
    position (element_props e) = Some (place i (k + c * i)%nat).
Proof.
  intros Hi. exists (fst (item i (k + c * i)%nat)). split; [|split].
  - unfold Array_map. rewrite (map_from_nth item c item_calls N 0 k i Hi).
    reflexivity.
  - apply item_type.
  - apply item_place.
Qed.

Lemma group_In (N k : nat) (e : element) :
  In e (fst (Array_map N item k)) ->
  exists i : nat,
    (i < N)%nat /\
    type e = t /\
    position (element_props e) = Some (place i (k + c * i)%nat).
Proof.
  intros He. unfold Array_map in He.
  apply (map_from_In item c item_calls) in He.
  destruct He as [i [Hi He]]. simpl in He. subst e.
  exists i. split; [exact Hi|]. split; [apply item_type|apply item_place].
Qed.

End Groups.

Lemma ring_group_tier (random : source) (item : nat -> M element)
    (c : nat) (t : componentType) (N : nat) (n lo span hi : R) :
  unit_interval random ->
  n = INR N -> (0 < N)%nat -> 0 <= lo -> 0 <= span -> hi = lo + span ->
  (forall i k : nat, snd (item i k) = (k + c)%nat) ->
  (forall i k : nat, type (fst (item i k)) = t) ->
  (forall i k : nat,
     position (element_props (fst (item i k)))
     = Some (ring_place random n lo span i k)) ->
  forall k : nat, ring_tier t N lo hi (fst (Array_map N item k)).
Proof.
  intros Hr Hn HN Hlo Hspan Hhi Hc Ht Hp k. split; [|split].
  - apply group_length.
  - intros i Hi.
    destruct (group_nth item c t _ Hc Ht Hp N k i Hi) as [e [He [Hte Hpe]]].
    destruct (ring_place_facts random N n lo span i (k + c * i)%nat
                Hn Hlo Hspan (Hr _)) as [_ [_ [Hg Hb]]].
    exists e, (ring_place random n lo span i (k + c * i)%nat).
    subst hi. repeat split; try assumption; apply Hb.
  - intros i. apply ring_angle_step. exact HN.
Qed.

Lemma disc_group_fill (random : source) (item : nat -> M element)
    (c : nat) (t : componentType) (N : nat) (lo span hi : R) :
  unit_interval random ->
  0 <= lo -> 0 <= span -> hi = lo + span ->
  (forall i k : nat, snd (item i k) = (k + c)%nat) ->
  (forall i k : nat, type (fst (item i k)) = t) ->
  (forall i k : nat,
     position (element_props (fst (item i k)))
     = Some (disc_place random lo span k)) ->
  forall k : nat, disc_fill random t N lo hi k c (fst (Array_map N item k)).
Proof.
  intros Hr Hlo Hspan Hhi Hc Ht Hp k. split.
  - apply group_length.
  - intros i Hi.
    destruct (group_nth item c t _ Hc Ht Hp N k i Hi) as [e [He [Hte Hpe]]].
    destruct (disc_place_facts random lo span (k + c * i)%nat
                Hlo Hspan (Hr _) (Hr _)) as [_ [_ [Hg [Ha Hb]]]].
    exists e, (disc_place random lo span (k + c * i)%nat),
           (random (k + c * i)%nat * PI * 2).
    subst hi. repeat split; try assumption; try apply Ha; apply Hb.
Qed.

(** The six instance groups of the page, in the order of the source. *)
Lemma XRScene_groups {Handler : Type} (random : source)
    (p : XRSceneProps Handler) (k : nat) :
  instance_groups (fst (XRScene random p k))
  = [ fst (Array_map 20 (flower_item random) k);
      fst (Array_map 15 (fruit_item random) (k + 40)%nat);
      fst (Array_map 12 (tree_item random) (k + 70)%nat);
      fst (Array_map 40 (small_item random) (k + 94)%nat);
      fst (Array_map 25 (flower_extra_item random) (k + 174)%nat);
      fst (Array_map 18 (fruit_extra_item random) (k + 249)%nat) ].
Proof. unfold instance_groups. rewrite XRScene_scene. reflexivity. Qed.

Lemma flower_ring (random : source) (k : nat) :
  unit_interval random ->
  ring_tier type_Flower 20 2.5 4.0 (fst (Array_map 20 (flower_item random) k)).
Proof.
  intros Hr.
  apply (ring_group_tier random (flower_item random) 2 type_Flower 20 20 2.5 1.5);
    try exact Hr; try (simpl; lra); try lia.
  - apply flower_item_calls.
  - reflexivity.
  - apply flower_item_place.
Qed.

Lemma fruit_ring (random : source) (k : nat) :
  unit_interval random ->
  ring_tier type_FruitPlant 15 4 6 (fst (Array_map 15 (fruit_item random) k)).
Proof.
  intros Hr.
  apply (ring_group_tier random (fruit_item random) 2 type_FruitPlant 15 15 4 2);
    try exact Hr; try (simpl; lra); try lia.
  - apply fruit_item_calls.
  - reflexivity.
  - apply fruit_item_place.
Qed.

Lemma tree_ring (random : source) (k : nat) :
  unit_interval random ->
  ring_tier type_Tree 12 6.5 8.5 (fst (Array_map 12 (tree_item random) k)).
Proof.
  intros Hr.
  apply (ring_group_tier random (tree_item random) 2 type_Tree 12 12 6.5 2);
    try exact Hr; try (simpl; lra); try lia.
  - apply tree_item_calls.
  - reflexivity.
  - apply tree_item_place.
Qed.

Lemma small_disc (random : source) (k : nat) :
  unit_interval random ->
  disc_fill random type_SmallPlant 40 1.5 8.5 k 2
    (fst (Array_map 40 (small_item random) k)).
Proof.
  intros Hr.
  apply (disc_group_fill random (small_item random) 2 type_SmallPlant 40 1.5 7);
    try exact Hr; try lra.
  - apply small_item_calls.
  - reflexivity.
  - apply small_item_place.
Qed.

Lemma flower_extra_disc (random : source) (k : nat) :
  unit_interval random ->
  disc_fill random type_Flower 25 1.5 7.5 k 3
    (fst (Array_map 25 (flower_extra_item random) k)).
Proof.
  intros Hr.
  apply (disc_group_fill random (flower_extra_item random) 3 type_Flower 25 1.5 6);
    try exact Hr; try lra.
  - apply flower_extra_item_calls.
  - reflexivity.
  - apply flower_extra_item_place.
Qed.

Lemma fruit_extra_disc (random : source) (k : nat) :
  unit_interval random ->
  disc_fill random type_FruitPlant 18 2 7 k 3
    (fst (Array_map 18 (fruit_extra_item random) k)).
Proof.
  intros Hr.
  apply (disc_group_fill random (fruit_extra_item random) 3 type_FruitPlant 18 2 5);
    try exact Hr; try lra.
  - apply fruit_extra_item_calls.
  - reflexivity.
  - apply fruit_extra_item_place.
Qed.

(** C1: for every draw in [0, 1), the first three groups of the page are
    ring tiers: 20 flowers in the band [2.5, 4.0], 15 fruit plants in
    [4, 6] and 12 trees in [6.5, 8.5]; each has exactly N elements, the
    i-th at angle 2.pi.i/N (so consecutive ones 2.pi/N apart) and at a
    distance within the band. *)
Theorem ring_tiers_placement {Handler : Type} (random : source)
    (p : XRSceneProps Handler) (k : nat) :
  unit_interval random ->
  exists flowers fruits trees smalls flowers_extra fruits_extra,
    instance_groups (fst (XRScene random p k))
      = [flowers; fruits; trees; smalls; flowers_extra; fruits_extra] /\
    ring_tier type_Flower 20 2.5 4.0 flowers /\
    ring_tier type_FruitPlant 15 4 6 fruits /\
    ring_tier type_Tree 12 6.5 8.5 trees.
Proof.
  intros Hr. rewrite XRScene_groups. do 6 eexists.
  split; [reflexivity|]. split; [|split].
  - apply flower_ring. exact Hr.
  - apply fruit_ring. exact Hr.
  - apply tree_ring. exact Hr.
Qed.

(** C2: for every draw in [0, 1), the last three groups of the page are
    disc scatters: 40 small plants in the band [1.5, 8.5], 25 flowers in
    [1.5, 7.5] and 18 fruit plants in [2, 7]; each has exactly N elements,
    every one at the angle its callback draws, the first draw of the
    callback scaled to a turn and so an angle of [0, 2.pi), and at a
    distance within the band.  The three groups are made after 94, 174 and
    249 calls of the render, with 2, 3 and 3 calls for each element. *)
Theorem disc_groups_placement {Handler : Type} (random : source)
    (p : XRSceneProps Handler) (k : nat) :
  unit_interval random ->
  exists flowers fruits trees smalls flowers_extra fruits_extra,
    instance_groups (fst (XRScene random p k))
      = [flowers; fruits; trees; smalls; flowers_extra; fruits_extra] /\
    disc_fill random type_SmallPlant 40 1.5 8.5 (k + 94) 2 smalls /\
    disc_fill random type_Flower 25 1.5 7.5 (k + 174) 3 flowers_extra /\
    disc_fill random type_FruitPlant 18 2 7 (k + 249) 3 fruits_extra.
Proof.
  intros Hr. rewrite XRScene_groups. do 6 eexists.
  split; [reflexivity|]. split; [|split].
  - apply small_disc. exact Hr.
  - apply flower_extra_disc. exact Hr.
  - apply fruit_extra_disc. exact Hr.
Qed.

(** ** The scene: height of the instances *)

Lemma XRScene_dom {Handler : Type} (random : source)
    (p : XRSceneProps Handler) (k : nat) :
  exists scene : list sceneNode,
    fst (XRScene random p k)
    = xrButtons :: exit_button p ++ [Canvas (5, 5, 5) scene].
Proof. eexists. reflexivity. Qed.

(** C9: whatever the draws, every element of the six instance groups is
    placed at height y = -1, the height of the reference grid. *)
Theorem instances_on_the_ground {Handler : Type} (random : source)
    (p : XRSceneProps Handler) (k : nat) :
  (exists g : GridProps, In (Grid g) (scene_nodes (fst (XRScene random p k)))) /\
  (forall g : GridProps,
     In (Grid g) (scene_nodes (fst (XRScene random p k))) ->
     height (grid_position g) = -1) /\
  List.length (instance_groups (fst (XRScene random p k))) = 6%nat /\
  (forall (es : list element) (e : element),
     In es (instance_groups (fst (XRScene random p k))) -> In e es ->
     exists v : vec3,
       position (element_props e) = Some v /\ height v = -1).
Proof.
  rewrite XRScene_scene, XRScene_groups. split; [|split; [|split]].
  - exists grid. cbn [In]. tauto.
  - intros g Hg. cbn [In] in Hg.
    repeat (destruct Hg as [Hg|Hg]; [try discriminate Hg|]);
      try contradiction.
    injection Hg as <-. reflexivity.
  - reflexivity.
  - intros es e Hes He. cbn [In] in Hes.
    destruct Hes as [<-|[<-|[<-|[<-|[<-|[<-|[]]]]]]].
    + destruct (group_In _ 2 type_Flower _ (flower_item_calls random)
                  (fun _ _ => eq_refl) (flower_item_place random) _ _ _ He)
        as [i [_ [_ Hp]]].
      eexists. split; [exact Hp|reflexivity].
    + destruct (group_In _ 2 type_FruitPlant _ (fruit_item_calls random)
                  (fun _ _ => eq_refl) (fruit_item_place random) _ _ _ He)
        as [i [_ [_ Hp]]].
      eexists. split; [exact Hp|reflexivity].
    + destruct (group_In _ 2 type_Tree _ (tree_item_calls random)
                  (fun _ _ => eq_refl) (tree_item_place random) _ _ _ He)
        as [i [_ [_ Hp]]].
      eexists. split; [exact Hp|reflexivity].
    + destruct (group_In _ 2 type_SmallPlant _ (small_item_calls random)
                  (fun _ _ => eq_refl) (fun i => small_item_place random i)
                  _ _ _ He)
        as [i [_ [_ Hp]]].
      eexists. split; [exact Hp|reflexivity].
    + destruct (group_In _ 3 type_Flower _ (flower_extra_item_calls random)
                  (fun _ _ => eq_refl)
                  (fun i => flower_extra_item_place random i) _ _ _ He)
        as [i [_ [_ Hp]]].
      eexists. split; [exact Hp|reflexivity].
    + destruct (group_In _ 3 type_FruitPlant _ (fruit_extra_item_calls random)
                  (fun _ _ => eq_refl)
                  (fun i => fruit_extra_item_place random i) _ _ _ He)
        as [i [_ [_ Hp]]].
      eexists. split; [exact Hp|reflexivity].
Qed.

(** ** The scene: the exit button *)

(** C7: the page has an exit button exactly when the [onExitXR] prop is
    given; its click handler is that callback, a click on it runs that
    callback and nothing else, and without the prop the page has no exit
    button. *)
Theorem exit_button_forwards_callback {Handler : Type} (random : source)
    (p : XRSceneProps Handler) (k : nat) :
  ((exists (f : Handler) (l : string),
      In (button f l) (fst (XRScene random p k)))
   <-> exists f : Handler, onExitXR p = Some f) /\
  (forall (f : Handler) (l : string),
     In (button f l) (fst (XRScene random p k)) ->
     onExitXR p = Some f /\
     exit_buttons (fst (XRScene random p k)) = [f] /\
     forall (S : Type) (run : Handler -> S -> S) (s : S),
       click run (button f l) s = run f s) /\
  (onExitXR p = None -> exit_buttons (fst (XRScene random p k)) = []).
Proof.
  destruct (XRScene_dom random p k) as [scene Hdom]. rewrite Hdom.
  unfold exit_button. destruct (onExitXR p) as [f|]; cbn [app In].
  - split; [|split].
    + split; intros _.
      * exists f. reflexivity.
      * exists f, "Exit XR Mode"%string. right. left. reflexivity.
    + intros f' l [H|[H|[H|[]]]]; try discriminate H.
      injection H as <- <-. split; [reflexivity|]. split; reflexivity.
    + discriminate.
  - split; [|split].
    + split.
      * intros [f [l [H|[H|[]]]]]; discriminate H.
      * intros [f H]. discriminate H.
    + intros f l [H|[H|[]]]; discriminate H.
    + intros _. reflexivity.
Qed.

(** ** The scene: which groups are rings and which are scattered *)

Lemma ring_tier_sampled (G : group_fn) (t : componentType) (N : nat)
    (lo hi : R) :
  0 < lo ->
  (forall random : source, unit_interval random ->
     ring_tier t N lo hi (G random)) ->
  ring_sampled G.
Proof.
  intros Hlo Htier random Hr i e Hnth.
  destruct (Htier random Hr) as [Hlen [Hel _]].
  assert (Hi : (i < N)%nat).
  { rewrite <- Hlen. apply nth_error_Some. rewrite Hnth. discriminate. }
  destruct (Hel i Hi) as [e' [v [Hn' [_ [Hp [Hg Hb]]]]]].
  assert (e' = e) by congruence. subst e'.
  exists v. split; [exact Hp|]. split; [lra|]. rewrite Hlen. exact Hg.
Qed.

Lemma array_group_of (G : group_fn) (t : componentType) (N : nat)
    (item : source -> nat -> M element) (k : nat) :
  (forall random : source, G random = fst (Array_map N (item random) k)) ->
  (forall (random : source) (i j : nat), type (fst (item random i j)) = t) ->
  group_of t N G.
Proof.
  intros HG Ht random. rewrite HG. split.
  - apply group_length.
  - apply (map_from_all (item random) (fun e => type e = t)). apply Ht.
Qed.

(** A group that has elements is of one generator only. *)
Lemma group_of_unique (G : group_fn) (c c' : componentType) (n n' : nat) :
  (0 < n)%nat -> group_of c n G -> group_of c' n' G -> c = c' /\ n = n'.
Proof.
  intros Hn H H'.
  destruct (H (always 0)) as [Hlen Ht].
  destruct (H' (always 0)) as [Hlen' Ht'].
  destruct (G (always 0)) as [|e es] eqn:E.
  - simpl in Hlen. lia.
  - split; [|congruence].
    rewrite <- (Ht e (or_introl eq_refl)). apply Ht'. left. reflexivity.
Qed.

Section DiscFamily.
Variable item : source -> nat -> M element.
Variable c : nat.
Variable N : nat.
Variables lo span : R.
Variable k : nat.
Hypothesis lo_pos : 0 < lo.
Hypothesis span_pos : 0 <= span.
Hypothesis item_calls :
  forall (random : source) (i j : nat), snd (item random i j) = (j + c)%nat.
Hypothesis item_place :
  forall (random : source) (i j : nat),
    position (element_props (fst (item random i j)))
    = Some (disc_place random lo span j).

Lemma disc_family_sampled :
  disc_sampled (fun random => fst (Array_map N (item random) k)).
Proof.
  intros random Hr e He. unfold Array_map in He.
  apply (map_from_In _ c (item_calls random)) in He.
  destruct He as [i [_ He]]. subst e.
  destruct (disc_place_facts random lo span (k + c * i)%nat
              (Rlt_le _ _ lo_pos) span_pos (Hr _) (Hr _))
    as [_ [Hrad [Hg _]]].
  exists (disc_place random lo span (k + c * i)%nat), (k + c * i)%nat.
  split; [apply item_place|]. split; [|exact Hg].
  rewrite Hrad. specialize (Hr (S (k + c * i))). nra.
Qed.

(** With every draw at 1/4 the first element is a quarter turn round, not
    at angle 0 where a ring has its first place. *)
Lemma disc_family_not_ring :
  (0 < N)%nat ->
  ~ ring_sampled (fun random => fst (Array_map N (item random) k)).
Proof.
  intros HN Hring.
  assert (Hq : unit_interval (always (1 / 4))) by (intro j; unfold always; lra).
  assert (Hnth : nth_error (fst (Array_map N (item (always (1 / 4))) k)) 0
                 = Some (fst (item (always (1 / 4)) 0%nat k))).
  { unfold Array_map.
    rewrite (map_from_nth _ c (item_calls (always (1 / 4))) N 0 k 0 HN).
    rewrite Nat.mul_0_r, !Nat.add_0_r. reflexivity. }
  destruct (Hring (always (1 / 4)) Hq 0%nat _ Hnth) as [v [Hp [Hpos Hg]]].
  rewrite item_place in Hp. injection Hp as <-.
  destruct (disc_place_facts (always (1 / 4)) lo span k
              (Rlt_le _ _ lo_pos) span_pos (Hq _) (Hq _))
    as [_ [_ [Hg' _]]].
  rewrite Hg' in Hg. unfold polar in Hg.
  apply (f_equal snd) in Hg. cbn [snd] in Hg.
  replace (always (1 / 4) k * PI * 2) with (PI / 2) in Hg
    by (unfold always; field).
  replace (ring_angle (List.length
             (fst (Array_map N (item (always (1 / 4))) k))) 0) with 0 in Hg
    by (unfold ring_angle, Rdiv; simpl INR; ring).
  rewrite sin_PI2, sin_0 in Hg. lra.
Qed.

End DiscFamily.

Lemma ring_sampled_ext (G G' : group_fn) :
  (forall random : source, G random = G' random) ->
  ring_sampled G' -> ring_sampled G.
Proof.
  intros HG H random Hr i e. rewrite HG. apply H. exact Hr.
Qed.

Lemma disc_sampled_ext (G G' : group_fn) :
  (forall random : source, G random = G' random) ->
  disc_sampled G' -> disc_sampled G.
Proof.
  intros HG H random Hr e. rewrite HG. apply H. exact Hr.
Qed.

Section SceneGroups.
Context {Handler : Type}.
Variable p : XRSceneProps Handler.
Variable k : nat.

Lemma scene_group_unfold (g : nat) (random : source) :
  scene_group p k g random
  = nth g [ fst (Array_map 20 (flower_item random) k);
            fst (Array_map 15 (fruit_item random) (k + 40)%nat);
            fst (Array_map 12 (tree_item random) (k + 70)%nat);
            fst (Array_map 40 (small_item random) (k + 94)%nat);
            fst (Array_map 25 (flower_extra_item random) (k + 174)%nat);
            fst (Array_map 18 (fruit_extra_item random) (k + 249)%nat) ] [].
Proof. unfold scene_group. rewrite XRScene_groups. reflexivity. Qed.

Lemma scene_group_beyond (g : nat) (random : source) :
  (6 <= g)%nat -> scene_group p k g random = [].
Proof.
  intros Hg. rewrite scene_group_unfold.
  do 6 (destruct g as [|g]; [lia|]). destruct g; reflexivity.
Qed.

Lemma flowers_are_a_ring :
  group_of type_Flower 20 (scene_group p k 0) /\
  ring_sampled (scene_group p k 0).
Proof.
  split.
  - apply (array_group_of _ _ _ flower_item k).
    + intro random. apply scene_group_unfold.
    + reflexivity.
  - apply (ring_tier_sampled _ type_Flower 20 2.5 4.0); [lra|].
    intros random Hr. rewrite scene_group_unfold. apply flower_ring. exact Hr.
Qed.

Lemma fruits_are_a_ring :
  group_of type_FruitPlant 15 (scene_group p k 1) /\
  ring_sampled (scene_group p k 1).
Proof.
  split.
  - apply (array_group_of _ _ _ fruit_item (k + 40)).
    + intro random. apply scene_group_unfold.
    + reflexivity.
  - apply (ring_tier_sampled _ type_FruitPlant 15 4 6); [lra|].
    intros random Hr. rewrite scene_group_unfold. apply fruit_ring. exact Hr.
Qed.

Lemma trees_are_a_ring :
  group_of type_Tree 12 (scene_group p k 2) /\
  ring_sampled (scene_group p k 2).
Proof.
  split.
  - apply (array_group_of _ _ _ tree_item (k + 70)).
    + intro random. apply scene_group_unfold.
    + reflexivity.
  - apply (ring_tier_sampled _ type_Tree 12 6.5 8.5); [lra|].
    intros random Hr. rewrite scene_group_unfold. apply tree_ring. exact Hr.
Qed.

Lemma smalls_are_scattered :
  group_of type_SmallPlant 40 (scene_group p k 3) /\
  disc_sampled (scene_group p k 3) /\
  ~ ring_sampled (scene_group p k 3).
Proof.
  split; [|split].
  - apply (array_group_of _ _ _ small_item (k + 94)).
    + intro random. apply scene_group_unfold.
    + reflexivity.
  - apply (disc_sampled_ext _ _ (scene_group_unfold 3)).
    apply (disc_family_sampled small_item 2 40 1.5 7); try lra.
    + intros. apply small_item_calls.
    + intros. apply small_item_place.
  - intro H. apply (disc_family_not_ring small_item 2 40 1.5 7 (k + 94));
      try lra; try lia.
    + intros. apply small_item_calls.
    + intros. apply small_item_place.
    + apply (ring_sampled_ext _ (scene_group p k 3)); [|exact H].
      intro random. symmetry. apply scene_group_unfold.
Qed.

Lemma extra_flowers_are_scattered :
  group_of type_Flower 25 (scene_group p k 4) /\
  disc_sampled (scene_group p k 4) /\
  ~ ring_sampled (scene_group p k 4).
Proof.
  split; [|split].
  - apply (array_group_of _ _ _ flower_extra_item (k + 174)).
    + intro random. apply scene_group_unfold.
    + reflexivity.
  - apply (disc_sampled_ext _ _ (scene_group_unfold 4)).
    apply (disc_family_sampled flower_extra_item 3 25 1.5 6); try lra.
    + intros. apply flower_extra_item_calls.
    + intros. apply flower_extra_item_place.
  - intro H.
    apply (disc_family_not_ring flower_extra_item 3 25 1.5 6 (k + 174));
      try lra; try lia.
    + intros. apply flower_extra_item_calls.
    + intros. apply flower_extra_item_place.
    + apply (ring_sampled_ext _ (scene_group p k 4)); [|exact H].
      intro random. symmetry. apply scene_group_unfold.
Qed.

Lemma extra_fruits_are_scattered :
  group_of type_FruitPlant 18 (scene_group p k 5) /\
  disc_sampled (scene_group p k 5) /\
  ~ ring_sampled (scene_group p k 5).
Proof.
  split; [|split].
  - apply (array_group_of _ _ _ fruit_extra_item (k + 249)).
    + intro random. apply scene_group_unfold.
    + reflexivity.
  - apply (disc_sampled_ext _ _ (scene_group_unfold 5)).
    apply (disc_family_sampled fruit_extra_item 3 18 2 5); try lra.
    + intros. apply fruit_extra_item_calls.
    + intros. apply fruit_extra_item_place.
  - intro H.
    apply (disc_family_not_ring fruit_extra_item 3 18 2 5 (k + 249));
      try lra; try lia.
    + intros. apply fruit_extra_item_calls.
    + intros. apply fruit_extra_item_place.
    + apply (ring_sampled_ext _ (scene_group p k 5)); [|exact H].
      intro random. symmetry. apply scene_group_unfold.
Qed.

End SceneGroups.

Lemma ring_tier_of_iff {Handler : Type} (p : XRSceneProps Handler) (k : nat)
    (c : componentType) (n g : nat) :
  ring_tier_of p k c n g <->
  (g = 0%nat /\ c = type_Flower /\ n = 20%nat) \/
  (g = 1%nat /\ c = type_FruitPlant /\ n = 15%nat) \/
  (g = 2%nat /\ c = type_Tree /\ n = 12%nat).
Proof.
  split.
  - intros [Hn [Hof Hring]].
    destruct g as [|[|[|[|[|[|g]]]]]].
    + left. split; [reflexivity|].
      apply (group_of_unique _ _ _ _ _ Hn Hof (proj1 (flowers_are_a_ring p k))).
    + right. left. split; [reflexivity|].
      apply (group_of_unique _ _ _ _ _ Hn Hof (proj1 (fruits_are_a_ring p k))).
    + right. right. split; [reflexivity|].
      apply (group_of_unique _ _ _ _ _ Hn Hof (proj1 (trees_are_a_ring p k))).
    + exfalso. apply (proj2 (proj2 (smalls_are_scattered p k))). exact Hring.
    + exfalso. apply (proj2 (proj2 (extra_flowers_are_scattered p k))).
      exact Hring.
    + exfalso. apply (proj2 (proj2 (extra_fruits_are_scattered p k))).
      exact Hring.
    + exfalso. destruct (Hof (always 0)) as [Hlen _].
      rewrite scene_group_beyond in Hlen by lia. simpl in Hlen. lia.
  - intros [[-> [-> ->]]|[[-> [-> ->]]|[-> [-> ->]]]].
    + split; [lia|]. apply flowers_are_a_ring.
    + split; [lia|]. apply fruits_are_a_ring.
    + split; [lia|]. apply trees_are_a_ring.
Qed.

Lemma disc_scatter_of_iff {Handler : Type} (p : XRSceneProps Handler)
    (k : nat) (c : componentType) (n g : nat) :
  disc_scatter_of p k c n g <->
  (g = 3%nat /\ c = type_SmallPlant /\ n = 40%nat) \/
  (g = 4%nat /\ c = type_Flower /\ n = 25%nat) \/
  (g = 5%nat /\ c = type_FruitPlant /\ n = 18%nat).
Proof.
  split.
  - intros [Hn [Hof [_ Hnot]]].
    destruct g as [|[|[|[|[|[|g]]]]]].
    + exfalso. apply Hnot. apply flowers_are_a_ring.
    + exfalso. apply Hnot. apply fruits_are_a_ring.
    + exfalso. apply Hnot. apply trees_are_a_ring.
    + left. split; [reflexivity|].
      apply (group_of_unique _ _ _ _ _ Hn Hof
               (proj1 (smalls_are_scattered p k))).
    + right. left. split; [reflexivity|].
      apply (group_of_unique _ _ _ _ _ Hn Hof
               (proj1 (extra_flowers_are_scattered p k))).
    + right. right. split; [reflexivity|].
      apply (group_of_unique _ _ _ _ _ Hn Hof
               (proj1 (extra_fruits_are_scattered p k))).
    + exfalso. destruct (Hof (always 0)) as [Hlen _].
      rewrite scene_group_beyond in Hlen by lia. simpl in Hlen. lia.
  - intros [[-> [-> ->]]|[[-> [-> ->]]|[-> [-> ->]]]].
    + split; [lia|]. apply smalls_are_scattered.
    + split; [lia|]. apply extra_flowers_are_scattered.
    + split; [lia|]. apply extra_fruits_are_scattered.
Qed.

(** C6, as stated, fails: the page has no two ring tiers of flowers, of any
    sizes.  Of its two groups of flowers only the first is a ring; the
    second is scattered on the disc. *)
Lemma no_second_ring_of_flowers :
  ~ exists g1 g2 n1 n2 : nat,
      g1 <> g2 /\
      ring_tier_of no_exit 0 type_Flower n1 g1 /\
      ring_tier_of no_exit 0 type_Flower n2 g2.
Proof.
  intros [g1 [g2 [n1 [n2 [Hne [H1 H2]]]]]].
  apply ring_tier_of_iff in H1. apply ring_tier_of_iff in H2.
  destruct H1 as [[-> _]|[[_ [H _]]|[_ [H _]]]]; try discriminate H.
  destruct H2 as [[-> _]|[[_ [H _]]|[_ [H _]]]]; try discriminate H.
  apply Hne. reflexivity.
Qed.

(** C6, amended: the page has exactly six instance groups; the ring tiers
    are exactly the first three, one of 20 flowers, one of 15 fruit plants
    and one of 12 trees; the disc scatters are exactly the last three, the
    ground cover of 40 small plants and the two fills, of 25 flowers and of
    18 fruit plants. *)
Theorem six_instance_groups {Handler : Type} (p : XRSceneProps Handler)
    (k : nat) :
  (forall random : source,
     List.length (instance_groups (fst (XRScene random p k))) = 6%nat) /\
  (forall (c : componentType) (n g : nat),
     ring_tier_of p k c n g <->
     (g = 0%nat /\ c = type_Flower /\ n = 20%nat) \/
     (g = 1%nat /\ c = type_FruitPlant /\ n = 15%nat) \/
     (g = 2%nat /\ c = type_Tree /\ n = 12%nat)) /\
  (forall (c : componentType) (n g : nat),
     disc_scatter_of p k c n g <->
     (g = 3%nat /\ c = type_SmallPlant /\ n = 40%nat) \/
     (g = 4%nat /\ c = type_Flower /\ n = 25%nat) \/
     (g = 5%nat /\ c = type_FruitPlant /\ n = 18%nat)).
Proof.
  split; [|split].
  - intro random. rewrite XRScene_groups. reflexivity.
  - apply ring_tier_of_iff.
  - apply disc_scatter_of_iff.
Qed.

(** ** The theorems at a concrete source *)

Lemma always_unit_interval (c : R) : 0 <= c < 1 -> unit_interval (always c).
Proof. intros Hc k. exact Hc. Qed.

Lemma ring_tiers_placement_witness :
  unit_interval (always (1 / 2)) /\
  exists flowers fruits trees smalls flowers_extra fruits_extra,
    instance_groups (fst (XRScene (always (1 / 2)) no_exit 0%nat))
      = [flowers; fruits; trees; smalls; flowers_extra; fruits_extra] /\
    ring_tier type_Flower 20 2.5 4.0 flowers /\
    ring_tier type_FruitPlant 15 4 6 fruits /\
    ring_tier type_Tree 12 6.5 8.5 trees.
Proof.
  assert (H : unit_interval (always (1 / 2)))
    by (apply always_unit_interval; lra).
  split; [exact H|].
  exact (ring_tiers_placement (always (1 / 2)) no_exit 0%nat H).
Defined.

Lemma disc_groups_placement_witness :
  unit_interval (always (1 / 4)) /\
  exists flowers fruits trees smalls flowers_extra fruits_extra,
    instance_groups (fst (XRScene (always (1 / 4)) no_exit 0%nat))
      = [flowers; fruits; trees; smalls; flowers_extra; fruits_extra] /\
    disc_fill (always (1 / 4)) type_SmallPlant 40 1.5 8.5 94 2 smalls /\
    disc_fill (always (1 / 4)) type_Flower 25 1.5 7.5 174 3 flowers_extra /\
    disc_fill (always (1 / 4)) type_FruitPlant 18 2 7 249 3 fruits_extra.
Proof.
  assert (H : unit_interval (always (1 / 4)))
    by (apply always_unit_interval; lra).
  split; [exact H|].
  exact (disc_groups_placement (always (1 / 4)) no_exit 0%nat H).
Defined.

Lemma style_factor_ranges_witness :
  unit_interval (always (1 / 2)) /\
  (exists sizeVariation : R,
     Tree_sizeVariation
       (snd (fst (Tree (always (1 / 2)) no_props Tree_unmounted 0%nat)))
       = Some (sizeVariation, tt) /\
     0.8 <= sizeVariation <= 1.4) /\
  (exists heightVariation : R,
     FruitPlant_heightVariation
       (snd (fst (FruitPlant (always (1 / 2)) no_props FruitPlant_unmounted
                    0%nat)))
       = Some (heightVariation, tt) /\
     0.7 <= heightVariation <= 1.3).
Proof.
  assert (H : unit_interval (always (1 / 2)))
    by (apply always_unit_interval; lra).
  split; [exact H|].
  exact (style_factor_ranges (always (1 / 2)) no_props 0%nat H).
Defined.

Lemma palette_index_valid_witness :
  unit_interval (always (3 / 4)) /\
  (0 <= Math_floor (always (3 / 4) 0%nat * INR (List.length petalColors)) < 7)%Z /\
  (0 <= Math_floor (always (3 / 4) 0%nat * INR (List.length fruitColors)) < 4)%Z /\
  (0 <= Math_floor (always (3 / 4) 0%nat * INR (List.length greenShades)) < 4)%Z.
Proof.
  assert (H : unit_interval (always (3 / 4)))
    by (apply always_unit_interval; lra).
  split; [exact H|].
  destruct (palette_index_valid (always (3 / 4)) no_props 0%nat H)
    as [[H1 _] [[H2 _] [H3 _]]].
  split; [exact H1|]. split; [exact H2|exact H3].
Defined.

Lemma sub_part_counts_witness :
  unit_interval (always (1 / 2)) /\
  (exists (trunk leaves : mesh) (fruits : list mesh),
     children (fst (fst (FruitPlant (always (1 / 2)) no_props
                           FruitPlant_unmounted 0%nat)))
       = [one trunk; one leaves; many fruits] /\
     (4 <= List.length fruits <= 6)%nat /\
     forall m : mesh, In m fruits ->
       exists r : R, mesh_geometry m = sphereGeometry r 8 8) /\
  (exists cluster : list mesh,
     children (fst (fst (SmallPlant (always (1 / 2)) no_props
                           SmallPlant_unmounted 0%nat)))
       = [many cluster] /\
     (5 <= List.length cluster <= 8)%nat /\
     forall m : mesh, In m cluster ->
       exists r : R, mesh_geometry m = sphereGeometry r 6 6).
Proof.
  assert (H : unit_interval (always (1 / 2)))
    by (apply always_unit_interval; lra).
  split; [exact H|].
  exact (sub_part_counts (always (1 / 2)) no_props 0%nat H).
Defined.

(* ================================================================== *)
(** * Further properties of the generators *)

(** X1: a mounted Tree stands on the origin of its group: the trunk reaches
    from height 0 to 0.8 s, for the size factor s, and the foliage from
    0.4 s + 0.4 to 1.2 s + 0.4.  The cone meets the trunk exactly when s is
    at least 1, that is when the draw is at least 1/3; below that it floats
    over the trunk, by 0.08 at most. *)
Theorem Tree_extent (random : source) (p : groupProps) (k : nat) :
  unit_interval random ->
  exists (trunk foliage : mesh) (s : R),
    children (fst (fst (Tree random p Tree_unmounted k)))
      = [one trunk; one foliage] /\
    Tree_sizeVariation (snd (fst (Tree random p Tree_unmounted k)))
      = Some (s, tt) /\
    bottom trunk = 0 /\
    top trunk = 0.8 * s /\
    bottom foliage = 0.4 * s + 0.4 /\
    top foliage = 1.2 * s + 0.4 /\
    (bottom foliage <= top trunk <-> 1 / 3 <= random k) /\
    bottom foliage - top trunk <= 0.08 /\
    1.36 <= top foliage <= 2.08.
Proof.
  intros Hr. specialize (Hr k).
  do 2 eexists. exists (0.8 + random k * 0.6).
  split; [reflexivity|]. split; [reflexivity|].
  unfold bottom, top, height, half_height.
  cbn [mesh_position mesh_geometry fst snd Tree useMemo Tree_unmounted
       Tree_sizeVariation bind ret Math_random].
  repeat split; try lra.
Qed.

Lemma Tree_extent_witness :
  unit_interval (always (1 / 4)) /\
  exists (trunk foliage : mesh) (s : R),
    children (fst (fst (Tree (always (1 / 4)) no_props Tree_unmounted 0%nat)))
      = [one trunk; one foliage] /\
    bottom trunk = 0 /\
    top trunk < bottom foliage.
Proof.
  assert (H : unit_interval (always (1 / 4)))
    by (apply always_unit_interval; lra).
  split; [exact H|].
  destruct (Tree_extent (always (1 / 4)) no_props 0%nat H)
    as [trunk [foliage [s [Hc [_ [Hb [_ [_ [_ [Hiff _]]]]]]]]]].
  exists trunk, foliage, s. split; [exact Hc|]. split; [exact Hb|].
  apply Rnot_le_lt. intro Hle. apply Hiff in Hle. unfold always in Hle. lra.
Defined.

(** The parts of a mounted FruitPlant, with the height factor and the colour
    its first two draws decide. *)
Lemma FruitPlant_parts (random : source) (p : groupProps) (k : nat) :
  exists trunk leaves : mesh,
    children (fst (fst (FruitPlant random p FruitPlant_unmounted k)))
      = [ one trunk; one leaves;
          many (fst (Array_map
                       (Array_length (FruitPlant_fruitCount (random (S (S k)))))
                       (FruitPlant_fruit random (0.7 + random (S k) * 0.6)
                          (index fruitColors
                             (Math_floor
                                (random k * INR (List.length fruitColors)))))
                       (S (S (S k))))) ] /\
    mesh_position trunk = (0, (0.7 + random (S k) * 0.6) * 0.5, 0) /\
    mesh_geometry trunk
      = cylinderGeometry 0.03 0.04 (0.7 + random (S k) * 0.6) 8 /\
    mesh_position leaves = (0, 0.7 + random (S k) * 0.6 + 0.3, 0) /\
    mesh_geometry leaves = coneGeometry 0.25 0.6 8 /\
    FruitPlant_heightVariation
      (snd (fst (FruitPlant random p FruitPlant_unmounted k)))
      = Some (0.7 + random (S k) * 0.6, tt) /\
    FruitPlant_fruitColor
      (snd (fst (FruitPlant random p FruitPlant_unmounted k)))
      = Some (index fruitColors
                (Math_floor (random k * INR (List.length fruitColors))), tt).
Proof. do 2 eexists. repeat split; reflexivity. Qed.

Lemma FruitPlant_fruit_facts (random : source) (hv : R) (fc : option string)
    (i j : nat) :
  0 <= random (S j) < 1 ->
  mesh_key (fst (FruitPlant_fruit random hv fc i j)) = Some i /\
  color (mesh_material (fst (FruitPlant_fruit random hv fc i j))) = fc /\
  mesh_geometry (fst (FruitPlant_fruit random hv fc i j))
    = sphereGeometry 0.06 8 8 /\
  radius (mesh_position (fst (FruitPlant_fruit random hv fc i j)))
    = 0.15 + random (S j) * 0.1 /\
  ground (mesh_position (fst (FruitPlant_fruit random hv fc i j)))
    = polar (INR i / 6 * PI * 2 + random j * 0.5)
        (radius (mesh_position (fst (FruitPlant_fruit random hv fc i j)))) /\
  height (mesh_position (fst (FruitPlant_fruit random hv fc i j)))
    = hv + 0.2 + random (S (S j)) * 0.4.
Proof.
  intros Hr.
  assert (Hrad : radius (mesh_position (fst (FruitPlant_fruit random hv fc i j)))
                 = 0.15 + random (S j) * 0.1).
  { unfold FruitPlant_fruit, bind, ret, Math_random.
    cbn [fst snd mesh_position]. apply radius_polar. lra. }
  split; [reflexivity|]. split; [reflexivity|]. split; [reflexivity|].
  split; [exact Hrad|]. split; [|reflexivity].
  rewrite Hrad. reflexivity.
Qed.

(** X2: every fruit of a mounted FruitPlant carries its index as key and the
    one colour memoized at the mount, a colour of the palette.  The fruit
    of index i is at an angle from 2.pi.i/6 to less than 0.5 further, so in
    the i-th sixth of the turn and in no other, and at a distance of 0.15 to
    0.25 from the axis, the radius of the cone of leaves at most. *)
Theorem FruitPlant_fruits_around (random : source) (p : groupProps) (k : nat) :
  unit_interval random ->
  exists (c : string) (trunk leaves : mesh) (fruits : list mesh),
    In c fruitColors /\
    FruitPlant_fruitColor
      (snd (fst (FruitPlant random p FruitPlant_unmounted k)))
      = Some (Some c, tt) /\
    children (fst (fst (FruitPlant random p FruitPlant_unmounted k)))
      = [one trunk; one leaves; many fruits] /\
    mesh_geometry leaves = coneGeometry 0.25 0.6 8 /\
    forall (i : nat) (m : mesh), nth_error fruits i = Some m ->
      mesh_key m = Some i /\
      color (mesh_material m) = Some c /\
      0.15 <= radius (mesh_position m) <= 0.25 /\
      exists a : R,
        ground (mesh_position m) = polar a (radius (mesh_position m)) /\
        ring_angle 6 i <= a < ring_angle 6 i + 0.5 /\
        a < ring_angle 6 (S i) /\
        a < 2 * PI.
Proof.
  intros Hr.
  destruct (palette_pick fruitColors (random k) (Hr k)) as [c [Hc Hin]];
    [discriminate|].
  destruct (FruitPlant_parts random p k)
    as [trunk [leaves [Hch [_ [_ [_ [Hg [_ Hcol]]]]]]]].
  exists c, trunk, leaves. eexists.
  split; [exact Hin|]. split; [rewrite Hcol, Hc; reflexivity|].
  split; [exact Hch|]. split; [exact Hg|].
  intros i m Hm.
  assert (Hi : (i < Array_length (FruitPlant_fruitCount (random (S (S k)))))%nat).
  { erewrite <- map_from_length. apply nth_error_Some.
    unfold Array_map in Hm. rewrite Hm. discriminate. }
  unfold Array_map in Hm.
  rewrite (map_from_nth _ 3 (FruitPlant_fruit_calls random _ _) _ _ _ _ Hi) in Hm.
  change (0 + i)%nat with i in Hm.
  remember (S (S (S k)) + 3 * i)%nat as j eqn:Ej. clear Ej.
  assert (Em : m = fst (FruitPlant_fruit random (0.7 + random (S k) * 0.6)
                          (index fruitColors
                             (Math_floor
                                (random k * INR (List.length fruitColors))))
                          i j)) by congruence.
  clear Hm. subst m.
  pose proof (fruitCount_range _ (Hr (S (S k)))) as Hcount.
  assert (Hi6 : (i < 6)%nat) by lia.
  destruct (FruitPlant_fruit_facts random (0.7 + random (S k) * 0.6)
              (index fruitColors
                 (Math_floor (random k * INR (List.length fruitColors))))
              i j (Hr _))
    as [Hkey [Hco [_ [Hrad [Hgr _]]]]].
  split; [exact Hkey|]. split; [rewrite Hco; exact Hc|].
  split; [rewrite Hrad; specialize (Hr (S j)); lra|].
  eexists. split; [exact Hgr|].
  pose proof (Hr j) as Hj.
  pose proof PI2_1 as Hpi.
  assert (Hle : INR i <= 5).
  { replace 5 with (INR 5) by (simpl; lra). apply le_INR. lia. }
  assert (H0 : 0 <= INR i) by apply pos_INR.
  assert (Hprod : INR i * PI <= 5 * PI) by nra.
  unfold ring_angle. replace (INR 6) with 6 by (simpl; lra). rewrite S_INR.
  repeat split; lra.
Qed.

(** X3: a mounted FruitPlant stands on the origin of its group and its cone
    of leaves sits exactly on its trunk, whatever the draws: the trunk
    reaches from 0 to the height factor h and the cone from h to h + 0.6.
    The centre of every fruit is in the upper two thirds of the cone. *)
Theorem FruitPlant_extent (random : source) (p : groupProps) (k : nat) :
  unit_interval random ->
  exists (trunk leaves : mesh) (fruits : list mesh) (h : R),
    children (fst (fst (FruitPlant random p FruitPlant_unmounted k)))
      = [one trunk; one leaves; many fruits] /\
    FruitPlant_heightVariation
      (snd (fst (FruitPlant random p FruitPlant_unmounted k)))
      = Some (h, tt) /\
    bottom trunk = 0 /\
    top trunk = h /\
    bottom leaves = top trunk /\
    top leaves = h + 0.6 /\
    forall m : mesh, In m fruits ->
      bottom leaves + 0.2 <= height (mesh_position m) <= top leaves.
Proof.
  intros Hr.
  destruct (FruitPlant_parts random p k)
    as [trunk [leaves [Hch [Hpt [Hgt [Hpl [Hgl [Hh _]]]]]]]].
  exists trunk, leaves. eexists. exists (0.7 + random (S k) * 0.6).
  split; [exact Hch|]. split; [exact Hh|].
  unfold bottom, top. rewrite Hpt, Hgt, Hpl, Hgl.
  unfold height, half_height. cbn [fst snd].
  do 4 (split; [lra|]).
  intros m Hm. unfold Array_map in Hm.
  apply (map_from_In _ 3 (FruitPlant_fruit_calls random _ _)) in Hm.
  destruct Hm as [j [_ ->]].
  destruct (FruitPlant_fruit_facts random (0.7 + random (S k) * 0.6)
              (index fruitColors
                 (Math_floor (random k * INR (List.length fruitColors))))
              (0 + j) (S (S (S k)) + 3 * j)%nat (Hr _))
    as [_ [_ [_ [_ [_ Hy]]]]].
  unfold height in Hy. rewrite Hy.
  specialize (Hr (S (S (S (S (S k)) + 3 * j)))). lra.
Qed.

Lemma SmallPlant_parts (random : source) (p : groupProps) (k : nat) :
  children (fst (fst (SmallPlant random p SmallPlant_unmounted k)))
    = [ many (fst (Array_map
                     (Array_length (SmallPlant_clusterSize (random (S k))))
                     (SmallPlant_sphere random
                        (index greenShades
                           (Math_floor
                              (random k * INR (List.length greenShades)))))
                     (S (S k)))) ] /\
  SmallPlant_plantColor
    (snd (fst (SmallPlant random p SmallPlant_unmounted k)))
    = Some (index greenShades
              (Math_floor (random k * INR (List.length greenShades))), tt).
Proof. split; reflexivity. Qed.

(** X4: every sphere of the cluster of a mounted SmallPlant carries its
    index as key and the one colour memoized at the mount, a colour of the
    palette; its radius is from 0.05 to 0.08 and its centre within 0.1 of
    the axis on both ground axes and from 0 to 0.15 high, so the cluster
    reaches from -0.08 at the lowest to 0.23 at the highest. *)
Theorem SmallPlant_cluster_box (random : source) (p : groupProps) (k : nat) :
  unit_interval random ->
  exists (c : string) (cluster : list mesh),
    In c greenShades /\
    SmallPlant_plantColor
      (snd (fst (SmallPlant random p SmallPlant_unmounted k)))
      = Some (Some c, tt) /\
    children (fst (fst (SmallPlant random p SmallPlant_unmounted k)))
      = [many cluster] /\
    forall (i : nat) (m : mesh), nth_error cluster i = Some m ->
      mesh_key m = Some i /\
      color (mesh_material m) = Some c /\
      (exists r : R,
         mesh_geometry m = sphereGeometry r 6 6 /\ 0.05 <= r <= 0.08) /\
      -0.1 <= fst (fst (mesh_position m)) <= 0.1 /\
      -0.1 <= snd (mesh_position m) <= 0.1 /\
      0 <= height (mesh_position m) <= 0.15 /\
      -0.08 <= bottom m /\
      top m <= 0.23.
Proof.
  intros Hr.
  destruct (palette_pick greenShades (random k) (Hr k)) as [c [Hc Hin]];
    [discriminate|].
  destruct (SmallPlant_parts random p k) as [Hch Hcol].
  exists c. eexists.
  split; [exact Hin|]. split; [rewrite Hcol, Hc; reflexivity|].
  split; [exact Hch|].
  intros i m Hm.
  assert (Hi : (i < Array_length (SmallPlant_clusterSize (random (S k))))%nat).
  { erewrite <- map_from_length. apply nth_error_Some.
    unfold Array_map in Hm. rewrite Hm. discriminate. }
  unfold Array_map in Hm.
  rewrite (map_from_nth _ 4 (SmallPlant_sphere_calls random _) _ _ _ _ Hi) in Hm.
  change (0 + i)%nat with i in Hm.
  remember (S (S k) + 4 * i)%nat as j eqn:Ej. clear Ej.
  assert (Em : m = fst (SmallPlant_sphere random
                          (index greenShades
                             (Math_floor
                                (random k * INR (List.length greenShades))))
                          i j)) by congruence.
  clear Hm. subst m.
  pose proof (Hr j) as H1. pose proof (Hr (S j)) as H2.
  pose proof (Hr (S (S j))) as H3. pose proof (Hr (S (S (S j)))) as H4.
  split; [reflexivity|]. split; [exact Hc|].
  split; [exists (0.05 + random (S (S (S j))) * 0.03);
          split; [reflexivity|lra]|].
  unfold bottom, top, height, half_height, SmallPlant_sphere, bind, ret,
    Math_random.
  cbn [fst snd mesh_position mesh_geometry].
  repeat split; lra.
Qed.

Lemma Flower_petal_calls (fc : option string) (i k : nat) :
  snd (Flower_petal fc i k) = (k + 0)%nat.
Proof. unfold Flower_petal, ret. simpl. lia. Qed.

Lemma Flower_parts (random : source) (p : groupProps) (k : nat) :
  exists stem centre : mesh,
    children (fst (fst (Flower random p Flower_unmounted k)))
      = [ one stem;
          many (fst (Array_map 6
                       (Flower_petal
                          (index petalColors
                             (Math_floor
                                (random k * INR (List.length petalColors)))))
                       (S k)));
          one centre ] /\
    mesh_position stem = (0, 0.5, 0) /\
    mesh_geometry stem = cylinderGeometry 0.02 0.02 1 8 /\
    mesh_position centre = (0, 1.1, 0) /\
    Flower_petalColor (snd (fst (Flower random p Flower_unmounted k)))
      = Some (index petalColors
                (Math_floor (random k * INR (List.length petalColors))), tt).
Proof. do 2 eexists. repeat split; reflexivity. Qed.

(** X5: the six petals of a mounted Flower carry their index as key and the
    one colour memoized at the mount, a colour of the palette; the petal of
    index i is at angle 2.pi.i/6 and at distance 0.15 from the axis, at the
    height of the centre of the flower and clear of the top of the stem. *)
Theorem Flower_petals_ring (random : source) (p : groupProps) (k : nat) :
  unit_interval random ->
  exists (c : string) (stem centre : mesh) (petals : list mesh),
    In c petalColors /\
    Flower_petalColor (snd (fst (Flower random p Flower_unmounted k)))
      = Some (Some c, tt) /\
    children (fst (fst (Flower random p Flower_unmounted k)))
      = [one stem; many petals; one centre] /\
    List.length petals = 6%nat /\
    forall (i : nat) (m : mesh), nth_error petals i = Some m ->
      mesh_key m = Some i /\
      color (mesh_material m) = Some c /\
      radius (mesh_position m) = 0.15 /\
      ground (mesh_position m) = polar (ring_angle 6 i) 0.15 /\
      height (mesh_position m) = height (mesh_position centre) /\
      top stem < bottom m.
Proof.
  intros Hr.
  destruct (palette_pick petalColors (random k) (Hr k)) as [c [Hc Hin]];
    [discriminate|].
  destruct (Flower_parts random p k)
    as [stem [centre [Hch [Hps [Hgs [Hpc Hcol]]]]]].
  exists c, stem, centre. eexists.
  split; [exact Hin|]. split; [rewrite Hcol, Hc; reflexivity|].
  split; [exact Hch|].
  split; [unfold Array_map; apply map_from_length|].
  intros i m Hm.
  assert (Hi : (i < 6)%nat).
  { erewrite <- map_from_length. apply nth_error_Some.
    unfold Array_map in Hm. rewrite Hm. discriminate. }
  unfold Array_map in Hm.
  rewrite (map_from_nth _ 0 (Flower_petal_calls _) _ _ _ _ Hi) in Hm.
  change (0 + i)%nat with i in Hm.
  remember (S k + 0 * i)%nat as j eqn:Ej. clear Ej.
  assert (Em : m = fst (Flower_petal
                          (index petalColors
                             (Math_floor
                                (random k * INR (List.length petalColors))))
                          i j)) by congruence.
  clear Hm. subst m.
  assert (Hrad : radius (mesh_position
                   (fst (Flower_petal
                           (index petalColors
                              (Math_floor
                                 (random k * INR (List.length petalColors))))
                           i j))) = 0.15).
  { unfold Flower_petal, ret. cbn [fst mesh_position].
    apply radius_polar. lra. }
  split; [reflexivity|]. split; [exact Hc|]. split; [exact Hrad|].
  split; [|split].
  - unfold Flower_petal, ret, ground, polar, ring_angle.
    cbn [fst snd mesh_position].
    replace (INR 6) with 6 by (simpl; lra).
    replace (2 * PI * INR i / 6) with (INR i / 6 * PI * 2) by field.
    reflexivity.
  - rewrite Hpc. reflexivity.
  - unfold top, bottom. rewrite Hps, Hgs.
    unfold height, half_height, Flower_petal, ret.
    cbn [fst snd mesh_position mesh_geometry]. lra.
Qed.

(** X6: a mounted instance rendered again with other props (a new position
    or rotation from its parent) keeps its children and its memoized values
    and calls [Math.random] not once; only the props of its group change.
    No dependency array of the generators lists a prop. *)
Theorem new_props_keep_the_style (random : source) (p p' : groupProps)
    (k k' : nat) :
  Tree random p' (snd (fst (Tree random p Tree_unmounted k))) k'
    = (({| props := p';
           children := children (fst (fst (Tree random p Tree_unmounted k))) |},
        snd (fst (Tree random p Tree_unmounted k))), k') /\
  Flower random p' (snd (fst (Flower random p Flower_unmounted k))) k'
    = (({| props := p';
           children :=
             children (fst (fst (Flower random p Flower_unmounted k))) |},
        snd (fst (Flower random p Flower_unmounted k))), k') /\
  FruitPlant random p'
      (snd (fst (FruitPlant random p FruitPlant_unmounted k))) k'
    = (({| props := p';
           children :=
             children (fst (fst (FruitPlant random p FruitPlant_unmounted k)))
        |},
        snd (fst (FruitPlant random p FruitPlant_unmounted k))), k') /\
  SmallPlant random p'
      (snd (fst (SmallPlant random p SmallPlant_unmounted k))) k'
    = (({| props := p';
           children :=
             children (fst (fst (SmallPlant random p SmallPlant_unmounted k)))
        |},
        snd (fst (SmallPlant random p SmallPlant_unmounted k))), k').
Proof.
  split; [reflexivity|]. split; [reflexivity|]. split.
  - unfold FruitPlant, bind. cbn -[object_is Array_map Q2R].
    rewrite !object_is_same. reflexivity.
  - unfold SmallPlant, bind. cbn -[object_is Array_map Q2R].
    rewrite !object_is_same. reflexivity.
Qed.

(** X7: the draws of a mount, when [Math.random] keeps its contract: one for
    a Tree and one for a Flower, from 15 to 21 for a FruitPlant (three, and
    three for each of its 4 to 6 fruits) and from 22 to 34 for a SmallPlant
    (two, and four for each of its 5 to 8 spheres). *)
Theorem mount_draws (random : source) (p : groupProps) (k : nat) :
  unit_interval random ->
  snd (Tree random p Tree_unmounted k) = (k + 1)%nat /\
  snd (Flower random p Flower_unmounted k) = (k + 1)%nat /\
  (exists n : nat,
     topology (fst (fst (FruitPlant random p FruitPlant_unmounted k)))
       = [1%nat; 1%nat; n] /\
     snd (FruitPlant random p FruitPlant_unmounted k) = (k + 3 + 3 * n)%nat /\
     (k + 15 <= snd (FruitPlant random p FruitPlant_unmounted k) <= k + 21)%nat) /\
  (exists n : nat,
     topology (fst (fst (SmallPlant random p SmallPlant_unmounted k))) = [n] /\
     snd (SmallPlant random p SmallPlant_unmounted k) = (k + 2 + 4 * n)%nat /\
     (k + 22 <= snd (SmallPlant random p SmallPlant_unmounted k) <= k + 34)%nat).
Proof.
  intros Hr.
  destruct (mount_calls random p k) as [Ht [Hf [Hfp Hsp]]].
  split; [rewrite Ht; lia|]. split; [rewrite Hf; lia|]. split.
  - exists (Array_length (FruitPlant_fruitCount (random (S (S k))))).
    split; [apply FruitPlant_topology|]. split; [exact Hfp|].
    rewrite Hfp. pose proof (fruitCount_range _ (Hr (S (S k)))). lia.
  - exists (Array_length (SmallPlant_clusterSize (random (S k)))).
    split; [apply SmallPlant_topology|]. split; [exact Hsp|].
    rewrite Hsp. pose proof (clusterSize_range _ (Hr (S k))). lia.
Qed.

(* ================================================================== *)
(** * Further properties of the scene *)

(** X8: rendering the page calls [Math.random] 303 times, whatever the
    props, and the exit callback has no part in the 3D scene: two pages
    rendered from the same draws have the same children under the XR
    provider, with or without the callback. *)
Theorem XRScene_render_draws {Handler Handler' : Type} (random : source)
    (p : XRSceneProps Handler) (p' : XRSceneProps Handler') (k : nat) :
  snd (XRScene random p k) = (k + 303)%nat /\
  scene_nodes (fst (XRScene random p k))
  = scene_nodes (fst (XRScene random p' k)).
Proof.
  split.
  - unfold XRScene, bind, Array_map.
    rewrite (map_from_calls _ 2 (flower_item_calls random)).
    rewrite (map_from_calls _ 2 (fruit_item_calls random)).
    rewrite (map_from_calls _ 2 (tree_item_calls random)).
    rewrite (map_from_calls _ 2 (small_item_calls random)).
    rewrite (map_from_calls _ 3 (flower_extra_item_calls random)).
    unfold ret. cbn [snd].
    rewrite (map_from_calls _ 3 (fruit_extra_item_calls random)). lia.
  - rewrite !XRScene_scene. reflexivity.
Qed.

(** ** Keys *)

Lemma append_inj_l (s a b : string) :
  (s ++ a)%string = (s ++ b)%string -> a = b.
Proof.
  induction s as [|ch s IH]; simpl; intros H.
  - exact H.
  - injection H as H. apply IH. exact H.
Qed.

(** Two keys of one prefix are the same string only for the same index. *)
Lemma key_string_inj (s : string) (i j : nat) :
  key_string (s, i) = key_string (s, j) -> i = j.
Proof.
  unfold key_string. cbn [fst snd]. intros H.
  apply append_inj_l in H.
  apply (f_equal NilEmpty.uint_of_string) in H.
  rewrite !NilEmpty.usu in H. injection H as H.
  apply Unsigned.to_uint_inj. exact H.
Qed.

Lemma map_from_map {A B : Type} (f : nat -> M A) (g : A -> B) (h : nat -> B) :
  (forall i k : nat, g (fst (f i k)) = h i) ->
  forall n i k : nat, map g (fst (map_from f i n k)) = map h (seq i n).
Proof.
  intros Hg n. induction n as [|n IH]; intros i k.
  - reflexivity.
  - simpl. unfold bind, ret. simpl. rewrite Hg, IH. reflexivity.
Qed.

Lemma keys_of_prefix_NoDup (s : string) (n : nat) :
  NoDup (map (fun i => key_string (s, i)) (seq 0 n)).
Proof.
  apply NoDup_map_NoDup_ForallPairs; [|apply seq_NoDup].
  intros i j _ _ H. apply (key_string_inj s). exact H.
Qed.

(** The type and key of every element of the page, group by group. *)
Lemma XRScene_identities {Handler : Type} (random : source)
    (p : XRSceneProps Handler) (k : nat) :
  map (map identity) (instance_groups (fst (XRScene random p k)))
  = [ map (fun i => (type_Flower, key_string ("flower-"%string, i)))
        (seq 0 20);
      map (fun i => (type_FruitPlant, key_string ("fruit-"%string, i)))
        (seq 0 15);
      map (fun i => (type_Tree, key_string ("tree-"%string, i)))
        (seq 0 12);
      map (fun i => (type_SmallPlant, key_string ("small-"%string, i)))
        (seq 0 40);
      map (fun i => (type_Flower, key_string ("flower-extra-"%string, i)))
        (seq 0 25);
      map (fun i => (type_FruitPlant, key_string ("fruit-extra-"%string, i)))
        (seq 0 18) ].
Proof.
  rewrite XRScene_groups. unfold Array_map. cbn [map].
  repeat (f_equal; [apply map_from_map; reflexivity|]).
  reflexivity.
Qed.

(** X9: which instances the page has does not depend on the draws, on the
    props or on the time of the render: any two renders give the same
    types and keys, group by group, so a re-render keeps every instance
    mounted.  The keys of the elements of one group are pairwise different
    strings, and the page has 130 elements in all. *)
Theorem XRScene_identities_stable {Handler Handler' : Type}
    (random random' : source) (p : XRSceneProps Handler)
    (p' : XRSceneProps Handler') (k k' : nat) :
  map (map identity) (instance_groups (fst (XRScene random p k)))
  = map (map identity) (instance_groups (fst (XRScene random' p' k'))) /\
  (forall es : list element,
     In es (instance_groups (fst (XRScene random p k))) ->
     NoDup (map (fun e => key_string (key e)) es)) /\
  List.length (List.concat (instance_groups (fst (XRScene random p k))))
  = 130%nat.
Proof.
  split; [|split].
  - rewrite !XRScene_identities. reflexivity.
  - intros es Hes. rewrite XRScene_groups in Hes. cbn [In] in Hes.
    unfold Array_map in Hes.
    destruct Hes as [<-|[<-|[<-|[<-|[<-|[<-|[]]]]]]].
    + rewrite (map_from_map _ _ (fun i => key_string ("flower-"%string, i)))
        by reflexivity.
      apply keys_of_prefix_NoDup.
    + rewrite (map_from_map _ _ (fun i => key_string ("fruit-"%string, i)))
        by reflexivity.
      apply keys_of_prefix_NoDup.
    + rewrite (map_from_map _ _ (fun i => key_string ("tree-"%string, i)))
        by reflexivity.
      apply keys_of_prefix_NoDup.
    + rewrite (map_from_map _ _ (fun i => key_string ("small-"%string, i)))
        by reflexivity.
      apply keys_of_prefix_NoDup.
    + rewrite (map_from_map _ _
                 (fun i => key_string ("flower-extra-"%string, i)))
        by reflexivity.
      apply keys_of_prefix_NoDup.
    + rewrite (map_from_map _ _
                 (fun i => key_string ("fruit-extra-"%string, i)))
        by reflexivity.
      apply keys_of_prefix_NoDup.
  - rewrite XRScene_groups. cbn [List.concat]. rewrite !length_app, !group_length.
    reflexivity.
Qed.

(** ** Where the instances stand *)

Lemma ring_place_radius (random : source) (n lo span : R) (i k : nat) :
  0 <= lo -> 0 <= span -> 0 <= random k ->
  radius (ring_place random n lo span i k) = lo + random k * span.
Proof.
  intros Hlo Hspan Hr. unfold ring_place. apply radius_polar. nra.
Qed.

Lemma disc_place_radius (random : source) (lo span : R) (k : nat) :
  0 <= lo -> 0 <= span -> 0 <= random (S k) ->
  radius (disc_place random lo span k) = lo + random (S k) * span.
Proof.
  intros Hlo Hspan Hr. unfold disc_place. apply radius_polar. nra.
Qed.

(** A point at most 10 from the axis is on the grid. *)
Lemma polar_on_grid (a d y : R) :
  0 <= d <= 10 -> on_grid grid (cos a * d, y, sin a * d).
Proof.
  intros Hd. unfold on_grid, grid. cbn [fst snd grid_position args].
  pose proof (COS_bound a) as Hc. pose proof (SIN_bound a) as Hs.
  split; apply Rabs_le; split; nra.
Qed.

(** Every element of the page is built by one of the six callbacks. *)
Lemma scene_elements {Handler : Type} (random : source)
    (p : XRSceneProps Handler) (k : nat) (es : list element) (e : element) :
  In es (instance_groups (fst (XRScene random p k))) -> In e es ->
  exists i j : nat,
    e = fst (flower_item random i j) \/
    e = fst (fruit_item random i j) \/
    e = fst (tree_item random i j) \/
    e = fst (small_item random i j) \/
    e = fst (flower_extra_item random i j) \/
    e = fst (fruit_extra_item random i j).
Proof.
  intros Hes He. rewrite XRScene_groups in Hes. cbn [In] in Hes.
  unfold Array_map in Hes.
  destruct Hes as [<-|[<-|[<-|[<-|[<-|[<-|[]]]]]]].
  - apply (map_from_In _ 2 (flower_item_calls random)) in He.
    destruct He as [i [_ ->]]. do 2 eexists. left. reflexivity.
  - apply (map_from_In _ 2 (fruit_item_calls random)) in He.
    destruct He as [i [_ ->]]. do 2 eexists. right. left. reflexivity.
  - apply (map_from_In _ 2 (tree_item_calls random)) in He.
    destruct He as [i [_ ->]]. do 2 eexists. do 2 right. left. reflexivity.
  - apply (map_from_In _ 2 (small_item_calls random)) in He.
    destruct He as [i [_ ->]]. do 2 eexists. do 3 right. left. reflexivity.
  - apply (map_from_In _ 3 (flower_extra_item_calls random)) in He.
    destruct He as [i [_ ->]]. do 2 eexists. do 4 right. left. reflexivity.
  - apply (map_from_In _ 3 (fruit_extra_item_calls random)) in He.
    destruct He as [i [_ ->]]. do 2 eexists. do 5 right. reflexivity.
Qed.

(** X10: when [Math.random] keeps its contract, every instance of the page
    stands at a distance of 1.5 to 8.5 from the centre and on the square of
    the reference grid. *)
Theorem instances_within_the_grid {Handler : Type} (random : source)
    (p : XRSceneProps Handler) (k : nat) :
  unit_interval random ->
  forall (es : list element) (e : element),
    In es (instance_groups (fst (XRScene random p k))) -> In e es ->
    exists v : vec3,
      position (element_props e) = Some v /\
      1.5 <= radius v <= 8.5 /\
      on_grid grid v.
Proof.
  intros Hr es e Hes He.
  destruct (scene_elements random p k es e Hes He)
    as [i [j [ -> | [ -> | [ -> | [ -> | [ -> | -> ] ] ] ] ] ] ].
  - exists (ring_place random 20 2.5 1.5 i j).
    pose proof (Hr j) as Hj.
    split; [reflexivity|]. split.
    + rewrite ring_place_radius by lra. lra.
    + apply polar_on_grid. lra.
  - exists (ring_place random 15 4 2 i j).
    pose proof (Hr j) as Hj.
    split; [reflexivity|]. split.
    + rewrite ring_place_radius by lra. lra.
    + apply polar_on_grid. lra.
  - exists (ring_place random 12 6.5 2 i j).
    pose proof (Hr j) as Hj.
    split; [reflexivity|]. split.
    + rewrite ring_place_radius by lra. lra.
    + apply polar_on_grid. lra.
  - exists (disc_place random 1.5 7 j).
    pose proof (Hr (S j)) as Hj.
    split; [reflexivity|]. split.
    + rewrite disc_place_radius by lra. lra.
    + apply polar_on_grid. lra.
  - exists (disc_place random 1.5 6 j).
    pose proof (Hr (S j)) as Hj.
    split; [reflexivity|]. split.
    + rewrite disc_place_radius by lra. lra.
    + apply polar_on_grid. lra.
  - exists (disc_place random 2 5 j).
    pose proof (Hr (S j)) as Hj.
    split; [reflexivity|]. split.
    + rewrite disc_place_radius by lra. lra.
    + apply polar_on_grid. lra.
Qed.

(** X11: every element of a generator other than SmallPlant is given a
    rotation about the vertical axis only, by an angle of [0, 2.pi) when
    [Math.random] keeps its contract; an element of SmallPlant is given no
    rotation. *)
Theorem rotations_about_the_vertical {Handler : Type} (random : source)
    (p : XRSceneProps Handler) (k : nat) :
  unit_interval random ->
  forall (es : list element) (e : element),
    In es (instance_groups (fst (XRScene random p k))) -> In e es ->
    (type e = type_SmallPlant /\ rotation (element_props e) = None) \/
    (type e <> type_SmallPlant /\
     exists a : R,
       rotation (element_props e) = Some (0, a, 0) /\ 0 <= a < 2 * PI).
Proof.
  intros Hr es e Hes He. pose proof PI_RGT_0 as Hpi.
  destruct (scene_elements random p k es e Hes He)
    as [i [j [ -> | [ -> | [ -> | [ -> | [ -> | -> ] ] ] ] ] ] ].
  - right. split; [discriminate|]. exists (random (S j) * PI * 2).
    split; [reflexivity|]. specialize (Hr (S j)). nra.
  - right. split; [discriminate|]. exists (random (S j) * PI * 2).
    split; [reflexivity|]. specialize (Hr (S j)). nra.
  - right. split; [discriminate|]. exists (random (S j) * PI * 2).
    split; [reflexivity|]. specialize (Hr (S j)). nra.
  - left. split; reflexivity.
  - right. split; [discriminate|]. exists (random (S (S j)) * PI * 2).
    split; [reflexivity|]. specialize (Hr (S (S j))). nra.
  - right. split; [discriminate|]. exists (random (S (S j)) * PI * 2).
    split; [reflexivity|]. specialize (Hr (S (S j))). nra.
Qed.

(** X12: the three rings are nested: when [Math.random] keeps its contract
    no flower of the first ring is farther from the centre than a fruit
    plant of the second, and every tree of the third is at least 0.5
    farther than every fruit plant of the second. *)
Theorem ring_tiers_are_nested {Handler : Type} (random : source)
    (p : XRSceneProps Handler) (k : nat) :
  unit_interval random ->
  forall (flower fruit tree : element) (v1 v2 v3 : vec3),
    In flower (scene_group p k 0 random) ->
    In fruit (scene_group p k 1 random) ->
    In tree (scene_group p k 2 random) ->
    position (element_props flower) = Some v1 ->
    position (element_props fruit) = Some v2 ->
    position (element_props tree) = Some v3 ->
    radius v1 <= radius v2 /\ radius v2 + 0.5 <= radius v3.
Proof.
  intros Hr e1 e2 e3 v1 v2 v3 H1 H2 H3 P1 P2 P3.
  rewrite scene_group_unfold in H1, H2, H3. cbn [nth] in H1, H2, H3.
  unfold Array_map in H1, H2, H3.
  apply (map_from_In _ 2 (flower_item_calls random)) in H1.
  apply (map_from_In _ 2 (fruit_item_calls random)) in H2.
  apply (map_from_In _ 2 (tree_item_calls random)) in H3.
  destruct H1 as [i1 [_ ->]]. destruct H2 as [i2 [_ ->]].
  destruct H3 as [i3 [_ ->]].
  rewrite flower_item_place in P1. rewrite fruit_item_place in P2.
  rewrite tree_item_place in P3.
  injection P1 as <-. injection P2 as <-. injection P3 as <-.
  rewrite !ring_place_radius by (try lra; apply Hr).
  match goal with
  | |- _ + random ?a * _ <= _ + random ?b * _ /\ _ <= _ + random ?c * _ =>
      pose proof (Hr a); pose proof (Hr b); pose proof (Hr c)
  end.
  lra.
Qed.

(** X13: the page memoizes no placement: every render places every element
    anew, from draws of its own.  In the render made after [k] calls the
    i-th element of a ring is placed at the distance its callback draws
    first, the draw of index k + 2 i for the flowers, k + 40 + 2 i for the
    fruit plants and k + 70 + 2 i for the trees; the i-th element of a
    scattered group is placed at the angle its callback draws first and at
    the distance it draws next, from the index k + 94 + 2 i for the small
    plants, k + 174 + 3 i for the flowers and k + 249 + 3 i for the fruit
    plants.  [ring_place random n lo span i j] is the place at angle
    2.pi.i/n and distance lo + span * random j, and [disc_place random lo
    span j] the place at angle 2.pi * random j and distance
    lo + span * random (j + 1). *)
Theorem placements_are_redrawn {Handler : Type} (random : source)
    (p : XRSceneProps Handler) (k i : nat) :
  ((i < 20)%nat ->
   exists e : element,
     nth_error (scene_group p k 0 random) i = Some e /\
     position (element_props e)
     = Some (ring_place random 20 2.5 1.5 i (k + 2 * i))) /\
  ((i < 15)%nat ->
   exists e : element,
     nth_error (scene_group p k 1 random) i = Some e /\
     position (element_props e)
     = Some (ring_place random 15 4 2 i (k + 40 + 2 * i))) /\
  ((i < 12)%nat ->
   exists e : element,
     nth_error (scene_group p k 2 random) i = Some e /\
     position (element_props e)
     = Some (ring_place random 12 6.5 2 i (k + 70 + 2 * i))) /\
  ((i < 40)%nat ->
   exists e : element,
     nth_error (scene_group p k 3 random) i = Some e /\
     position (element_props e)
     = Some (disc_place random 1.5 7 (k + 94 + 2 * i))) /\
  ((i < 25)%nat ->
   exists e : element,
     nth_error (scene_group p k 4 random) i = Some e /\
     position (element_props e)
     = Some (disc_place random 1.5 6 (k + 174 + 3 * i))) /\
  ((i < 18)%nat ->
   exists e : element,
     nth_error (scene_group p k 5 random) i = Some e /\
     position (element_props e)
     = Some (disc_place random 2 5 (k + 249 + 3 * i))).
Proof.
  rewrite !scene_group_unfold. cbn [nth].
  repeat split; intros Hi.
  - destruct (group_nth _ 2 type_Flower _ (flower_item_calls random)
                (fun _ _ => eq_refl) (flower_item_place random) 20 k i Hi)
      as [e [He [_ Hp]]].
    exists e. split; [exact He|exact Hp].
  - destruct (group_nth _ 2 type_FruitPlant _ (fruit_item_calls random)
                (fun _ _ => eq_refl) (fruit_item_place random) 15 (k + 40) i Hi)
      as [e [He [_ Hp]]].
    exists e. split; [exact He|exact Hp].
  - destruct (group_nth _ 2 type_Tree _ (tree_item_calls random)
                (fun _ _ => eq_refl) (tree_item_place random) 12 (k + 70) i Hi)
      as [e [He [_ Hp]]].
    exists e. split; [exact He|exact Hp].
  - destruct (group_nth _ 2 type_SmallPlant _ (small_item_calls random)
                (fun _ _ => eq_refl) (fun j => small_item_place random j)
                40 (k + 94) i Hi)
      as [e [He [_ Hp]]].
    exists e. split; [exact He|exact Hp].
  - destruct (group_nth _ 3 type_Flower _ (flower_extra_item_calls random)
                (fun _ _ => eq_refl)
                (fun j => flower_extra_item_place random j) 25 (k + 174) i Hi)
      as [e [He [_ Hp]]].
    exists e. split; [exact He|exact Hp].
  - destruct (group_nth _ 3 type_FruitPlant _ (fruit_extra_item_calls random)
                (fun _ _ => eq_refl)
                (fun j => fruit_extra_item_place random j) 18 (k + 249) i Hi)
      as [e [He [_ Hp]]].
    exists e. split; [exact He|exact Hp].
Qed.

(* ================================================================== *)
(** * The further theorems at a concrete source *)

Lemma half_unit_interval : unit_interval (always (1 / 2)).
Proof. apply always_unit_interval. lra. Qed.

Lemma first_group_in {Handler : Type} (random : source)
    (p : XRSceneProps Handler) (k : nat) :
  In (fst (Array_map 20 (flower_item random) k))
     (instance_groups (fst (XRScene random p k))).
Proof. rewrite XRScene_groups. left. reflexivity. Qed.

Lemma first_flower_in (random : source) (k : nat) :
  In (fst (flower_item random 0 k)) (fst (Array_map 20 (flower_item random) k)).
Proof.
  apply (nth_error_In _ 0). unfold Array_map.
  rewrite (map_from_nth _ 2 (flower_item_calls random) 20 0 k 0) by lia.
  rewrite Nat.mul_0_r, !Nat.add_0_r. reflexivity.
Qed.

Lemma first_fruit_in (random : source) (k : nat) :
  In (fst (fruit_item random 0 k)) (fst (Array_map 15 (fruit_item random) k)).
Proof.
  apply (nth_error_In _ 0). unfold Array_map.
  rewrite (map_from_nth _ 2 (fruit_item_calls random) 15 0 k 0) by lia.
  rewrite Nat.mul_0_r, !Nat.add_0_r. reflexivity.
Qed.

Lemma first_tree_in (random : source) (k : nat) :
  In (fst (tree_item random 0 k)) (fst (Array_map 12 (tree_item random) k)).
Proof.
  apply (nth_error_In _ 0). unfold Array_map.
  rewrite (map_from_nth _ 2 (tree_item_calls random) 12 0 k 0) by lia.
  rewrite Nat.mul_0_r, !Nat.add_0_r. reflexivity.
Qed.

Lemma FruitPlant_fruits_around_witness :
  unit_interval (always (1 / 2)) /\
  exists (c : string) (fruits : list mesh),
    In c fruitColors /\
    forall (i : nat) (m : mesh), nth_error fruits i = Some m ->
      mesh_key m = Some i /\ color (mesh_material m) = Some c.
Proof.
  split; [exact half_unit_interval|].
  destruct (FruitPlant_fruits_around (always (1 / 2)) no_props 0%nat
              half_unit_interval)
    as [c [trunk [leaves [fruits [Hin [_ [_ [_ Hf]]]]]]]].
  exists c, fruits. split; [exact Hin|].
  intros i m Hm. destruct (Hf i m Hm) as [Hk [Hc _]]. split; assumption.
Defined.

Lemma FruitPlant_extent_witness :
  unit_interval (always (1 / 2)) /\
  exists trunk leaves : mesh, bottom trunk = 0 /\ bottom leaves = top trunk.
Proof.
  split; [exact half_unit_interval|].
  destruct (FruitPlant_extent (always (1 / 2)) no_props 0%nat
              half_unit_interval)
    as [trunk [leaves [fruits [h [_ [_ [Hb [_ [Hl _]]]]]]]]].
  exists trunk, leaves. split; assumption.
Defined.

Lemma SmallPlant_cluster_box_witness :
  unit_interval (always (1 / 2)) /\
  exists (c : string) (cluster : list mesh),
    In c greenShades /\
    forall (i : nat) (m : mesh), nth_error cluster i = Some m ->
      -0.08 <= bottom m /\ top m <= 0.23.
Proof.
  split; [exact half_unit_interval|].
  destruct (SmallPlant_cluster_box (always (1 / 2)) no_props 0%nat
              half_unit_interval)
    as [c [cluster [Hin [_ [_ Hs]]]]].
  exists c, cluster. split; [exact Hin|].
  intros i m Hm.
  destruct (Hs i m Hm) as [_ [_ [_ [_ [_ [_ [Hb Ht]]]]]]]. split; assumption.
Defined.

Lemma Flower_petals_ring_witness :
  unit_interval (always (1 / 2)) /\
  exists (c : string) (petals : list mesh),
    In c petalColors /\ List.length petals = 6%nat.
Proof.
  split; [exact half_unit_interval|].
  destruct (Flower_petals_ring (always (1 / 2)) no_props 0%nat
              half_unit_interval)
    as [c [stem [centre [petals [Hin [_ [_ [Hlen _]]]]]]]].
  exists c, petals. split; assumption.
Defined.

Lemma mount_draws_witness :
  unit_interval (always (1 / 2)) /\
  (15 <= snd (FruitPlant (always (1 / 2)) no_props FruitPlant_unmounted 0%nat)
   <= 21)%nat.
Proof.
  split; [exact half_unit_interval|].
  destruct (mount_draws (always (1 / 2)) no_props 0%nat half_unit_interval)
    as [_ [_ [[n [_ [_ Hb]]] _]]].
  exact Hb.
Defined.

Lemma instances_within_the_grid_witness :
  unit_interval (always (1 / 2)) /\
  exists v : vec3,
    position (element_props (fst (flower_item (always (1 / 2)) 0%nat 0%nat)))
      = Some v /\
    1.5 <= radius v <= 8.5 /\
    on_grid grid v.
Proof.
  split; [exact half_unit_interval|].
  exact (instances_within_the_grid (always (1 / 2)) no_exit 0%nat
           half_unit_interval _ _
           (first_group_in (always (1 / 2)) no_exit 0%nat)
           (first_flower_in (always (1 / 2)) 0%nat)).
Defined.

Lemma rotations_about_the_vertical_witness :
  unit_interval (always (1 / 2)) /\
  exists a : R,
    rotation (element_props (fst (flower_item (always (1 / 2)) 0%nat 0%nat)))
      = Some (0, a, 0) /\
    0 <= a < 2 * PI.
Proof.
  split; [exact half_unit_interval|].
  destruct (rotations_about_the_vertical (always (1 / 2)) no_exit 0%nat
              half_unit_interval _ _
              (first_group_in (always (1 / 2)) no_exit 0%nat)
              (first_flower_in (always (1 / 2)) 0%nat))
    as [[Ht _]|[_ Ha]].
  - discriminate Ht.
  - exact Ha.
Defined.

Lemma first_of_rings_in {Handler : Type} (random : source)
    (p : XRSceneProps Handler) (k : nat) :
  In (fst (flower_item random 0 k)) (scene_group p k 0 random) /\
  In (fst (fruit_item random 0 (k + 40)%nat)) (scene_group p k 1 random) /\
  In (fst (tree_item random 0 (k + 70)%nat)) (scene_group p k 2 random).
Proof.
  rewrite !scene_group_unfold. cbn [nth]. split; [|split].
  - apply first_flower_in.
  - apply first_fruit_in.
  - apply first_tree_in.
Qed.

Lemma ring_tiers_are_nested_witness :
  unit_interval (always (1 / 2)) /\
  exists v1 v2 v3 : vec3,
    position (element_props (fst (flower_item (always (1 / 2)) 0%nat 0%nat)))
      = Some v1 /\
    position (element_props (fst (fruit_item (always (1 / 2)) 0%nat 40%nat)))
      = Some v2 /\
    position (element_props (fst (tree_item (always (1 / 2)) 0%nat 70%nat)))
      = Some v3 /\
    radius v1 <= radius v2 /\ radius v2 + 0.5 <= radius v3.
Proof.
  split; [exact half_unit_interval|].
  destruct (first_of_rings_in (always (1 / 2)) no_exit 0%nat)
    as [H1 [H2 H3]].
  do 3 eexists.
  split; [reflexivity|]. split; [reflexivity|]. split; [reflexivity|].
  exact (ring_tiers_are_nested (always (1 / 2)) no_exit 0%nat
           half_unit_interval _ _ _ _ _ _ H1 H2 H3
           eq_refl eq_refl eq_refl).
Defined.

